(** * oauth2cli.aio.oauth2: the asynchronous OAuth2 client

    A shallow embedding of [src/oauth2cli/aio/oauth2.py] and the
    verification of its device-flow poller, its token pipeline and its
    simple grants.

    Conventions of the embedding:
    - a Python [dict] with string keys is a [gmap string value];
    - Python values are the JSON universe ([None], [bool], [int], [float],
      [str], [list], [dict]); a finite [float] is written as the rational
      it stands for, and the rounding of float arithmetic is left to the
      platform, through an interface; a [str] is ASCII text;
    - a coroutine is a state transformer over the shared flow dictionary,
      the host environment (clock, network, scheduler) and the trace of
      interactions; an exception leaves the state reached so far;
    - the unbounded [while True] of the poller is run with fuel. *)

From Stdlib Require Import ZArith QArith String Ascii List Lia.
From stdpp Require Import base option gmap strings list.

Set Warnings "-register-all".
#[local] Open Scope Z_scope.

(** ** Python values *)

Module Py.

Inductive value : Type :=
  | VNone
  | VBool (b : bool)
  | VInt (z : Z)
  | VFloat (q : Q)
  | VStr (s : string)
  | VList (l : list value)
  | VDict (d : gmap string value)
  | VInf (negative : bool)
  | VNaN.

Inductive exn : Type :=
  | NameError (name : string)
  | ValueError (msg : string)
  | TypeError (msg : string)
  | KeyError (key : string)
  | AttributeError (attr : string)
  | HTTPFault (detail : string)        (* raised by resp.raise_for_status() *)
  | ConnectionFault (detail : string)  (* raised by the transport itself *)
  | ParseFailure (detail : string)     (* raised by a JSON decoder *)
  | OverflowError (msg : string).

(** [d.get(k, default)] *)
Definition get (d : gmap string value) (k : string) (default : value) : value :=
  match d !! k with
  | Some v => v
  | None => default
  end.

(** [d[k]] *)
Definition getitem (d : gmap string value) (k : string) : exn + value :=
  match d !! k with
  | Some v => inr v
  | None => inl (KeyError k)
  end.

(** [bool(v)] *)
Definition truthy (v : value) : bool :=
  match v with
  | VNone => false
  | VBool b => b
  | VInt z => negb (Z.eqb z 0)
  | VFloat q => negb (Z.eqb (Qnum q) 0)
  | VStr s => negb (String.eqb s EmptyString)
  | VList l => match l with [] => false | _ => true end
  | VDict d => negb (bool_decide (d = ∅))
  | VInf _ => true
  | VNaN => true
  end.

(** [a or b] *)
Definition or_ (a b : value) : value := if truthy a then a else b.

(** Numbers: [bool] is a subclass of [int]; a [float] is a finite value,
    an infinity or NaN. *)
Inductive num : Type :=
  | NInt (z : Z)
  | NFloat (q : Q)
  | NInf (negative : bool)
  | NNaN.

Definition as_num (v : value) : option num :=
  match v with
  | VBool b => Some (NInt (Z.b2z b))
  | VInt z => Some (NInt z)
  | VFloat q => Some (NFloat q)
  | VInf negative => Some (NInf negative)
  | VNaN => Some NNaN
  | _ => None
  end.

(** A [float] as arithmetic sees it. *)
Inductive flt : Type :=
  | FFinite (q : Q)
  | FInf (negative : bool)
  | FNaN.

Definition of_flt (f : flt) : value :=
  match f with
  | FFinite q => VFloat q
  | FInf negative => VInf negative
  | FNaN => VNaN
  end.

(** The float arithmetic of the platform.  Finite floats are written as
    the rationals they stand for.  [float_of_int] is the conversion of an
    [int] to a [float], [None] when the [int] is too large; [float_add]
    and [float_sub] are the rounded sum and difference of two finite
    floats, an infinity when the result overflows.  How they round is the
    platform's business; the laws hold of every rounding to nearest:
    converting an integer gives a float, non-negative when the integer is,
    and adding a non-negative float to a float does not give less. *)
Class Floats : Type := {
  is_float : Q → Prop;
  float_of_int : Z → option Q;
  float_add : Q → Q → flt;
  float_sub : Q → Q → flt;
  float_of_int_is_float : ∀ z q, float_of_int z = Some q → is_float q;
  float_of_int_nonneg : ∀ z q,
    0 ≤ z → float_of_int z = Some q → (0 <= q)%Q;
  float_add_nonneg : ∀ t x,
    is_float t → is_float x → (0 <= x)%Q →
    match float_add t x with
    | FFinite r => (t <= r)%Q
    | FInf negative => negative = false
    | FNaN => False
    end
}.

(** [float(n)] for an operand of float arithmetic *)
Definition to_flt `{Floats} (n : num) : exn + flt :=
  match n with
  | NInt z =>
      match float_of_int z with
      | Some q => inr (FFinite q)
      | None => inl (OverflowError "int too large to convert to float")
      end
  | NFloat q => inr (FFinite q)
  | NInf negative => inr (FInf negative)
  | NNaN => inr FNaN
  end.

Definition flt_add `{Floats} (x y : flt) : flt :=
  match x, y with
  | FNaN, _ | _, FNaN => FNaN
  | FInf a, FInf b => if Bool.eqb a b then FInf a else FNaN
  | FInf a, FFinite _ => FInf a
  | FFinite _, FInf b => FInf b
  | FFinite p, FFinite q => float_add p q
  end.

Definition flt_sub `{Floats} (x y : flt) : flt :=
  match x, y with
  | FNaN, _ | _, FNaN => FNaN
  | FInf a, FInf b => if Bool.eqb a b then FNaN else FInf a
  | FInf a, FFinite _ => FInf a
  | FFinite _, FInf b => FInf (negb b)
  | FFinite p, FFinite q => float_sub p q
  end.

(** Arithmetic on two numbers one of which at least is a [float]. *)
Definition float_arith `{Floats} (op : flt → flt → flt) (x y : num) : exn + value :=
  match to_flt x with
  | inl e => inl e
  | inr fx =>
      match to_flt y with
      | inl e => inl e
      | inr fy => inr (of_flt (op fx fy))
      end
  end.

(** [a + b]: numbers add, strings and lists concatenate. *)
Definition add `{Floats} (a b : value) : exn + value :=
  match as_num a, as_num b with
  | Some (NInt x), Some (NInt y) => inr (VInt (x + y))
  | Some x, Some y => float_arith flt_add x y
  | _, _ =>
      match a, b with
      | VStr s, VStr t => inr (VStr (s ++ t))
      | VList l, VList m => inr (VList (l ++ m))
      | _, _ => inl (TypeError "unsupported operand type(s) for +")
      end
  end.

(** [a - b]: numbers only, in this universe of values. *)
Definition sub `{Floats} (a b : value) : exn + value :=
  match as_num a, as_num b with
  | Some (NInt x), Some (NInt y) => inr (VInt (x - y))
  | Some x, Some y => float_arith flt_sub x y
  | _, _ => inl (TypeError "unsupported operand type(s) for -")
  end.

Definition Qltb (x y : Q) : bool := negb (Qle_bool y x).

(** [v > t] and [v < t] for a finite float [t]: only a number is
    comparable; an [int] is compared by its exact value, NaN compares
    false. *)
Definition gt_float (v : value) (t : Q) : exn + bool :=
  match as_num v with
  | Some (NInt z) => inr (Qltb t (inject_Z z))
  | Some (NFloat q) => inr (Qltb t q)
  | Some (NInf negative) => inr (negb negative)
  | Some NNaN => inr false
  | None => inl (TypeError "'>' not supported")
  end.

Definition lt_float (v : value) (t : Q) : exn + bool :=
  match as_num v with
  | Some (NInt z) => inr (Qltb (inject_Z z) t)
  | Some (NFloat q) => inr (Qltb q t)
  | Some (NInf negative) => inr negative
  | Some NNaN => inr false
  | None => inl (TypeError "'<' not supported")
  end.

(** [int(s)] for text, as CPython reads an ASCII string in base 10:
    leading whitespace, an optional sign, decimal digits with single
    underscores between them, trailing whitespace; more than
    [max_str_digits] digits are refused (the default of CPython 3.11). *)
Definition is_space (a : ascii) : bool :=
  let n := Z.of_nat (nat_of_ascii a) in
  (Z.leb 9 n && Z.leb n 13) || Z.eqb n 32.

Definition digit_of (a : ascii) : option Z :=
  let n := Z.of_nat (nat_of_ascii a) in
  if Z.leb 48 n && Z.leb n 57 then Some (n - 48) else None.

Fixpoint lstrip (l : list ascii) : list ascii :=
  match l with
  | c :: r => if is_space c then lstrip r else l
  | [] => []
  end.

Definition max_str_digits : nat := 4300.

(** What the scan has just read. *)
Inductive scanned : Type := AtStart | AfterDigit | AfterUnderscore.

(** The scan over digits and underscores: the value read, the number of
    digits and what is left, or [None] for a misplaced underscore. *)
Fixpoint scan_digits (l : list ascii) (acc : Z) (digits : nat) (prev : scanned)
    : option (Z * nat * list ascii) :=
  let stop := match prev with
              | AfterUnderscore => None
              | _ => Some (acc, digits, l)
              end in
  match l with
  | [] => stop
  | c :: r =>
      if Ascii.eqb c "_"%char
      then match prev with
           | AfterDigit => scan_digits r acc digits AfterUnderscore
           | _ => None
           end
      else match digit_of c with
           | Some d => scan_digits r (10 * acc + d) (S digits) AfterDigit
           | None => stop
           end
  end.

Definition invalid_literal : exn :=
  ValueError "invalid literal for int() with base 10".

Definition int_of_text (s : string) : exn + Z :=
  let l := lstrip (list_ascii_of_string s) in
  let '(negative, l) :=
    match l with
    | c :: r =>
        if Ascii.eqb c "-"%char then (true, r)
        else if Ascii.eqb c "+"%char then (false, r)
        else (false, l)
    | [] => (false, l)
    end in
  match scan_digits l 0 O AtStart with
  | None => inl invalid_literal
  | Some (z, digits, rest) =>
      match digits with
      | O => inl invalid_literal
      | _ =>
          if Nat.ltb max_str_digits digits
          then inl (ValueError "Exceeds the limit (4300 digits) for integer string conversion")
          else match lstrip rest with
               | [] => inr (if negative : bool then - z else z)
               | _ => inl invalid_literal
               end
      end
  end.

(** [int(v)] *)
Definition int (v : value) : exn + Z :=
  match v with
  | VBool b => inr (Z.b2z b)
  | VInt z => inr z
  | VFloat q => inr (Z.quot (Qnum q) (Z.pos (Qden q)))
  | VInf _ => inl (OverflowError "cannot convert float infinity to integer")
  | VNaN => inl (ValueError "cannot convert float NaN to integer")
  | VStr s => int_of_text s
  | _ => inl (TypeError "int() argument must be a string or a number")
  end.

(** [range(v)]: the number of rounds of [for i in range(v)]. *)
Definition range (v : value) : exn + nat :=
  match v with
  | VBool b => inr (Z.to_nat (Z.b2z b))
  | VInt z => inr (Z.to_nat z)
  | _ => inl (TypeError "object cannot be interpreted as an integer")
  end.

(** [v == s] for a string literal [s] *)
Definition eq_str (v : value) (s : string) : bool :=
  match v with
  | VStr t => String.eqb t s
  | _ => false
  end.

(** [v in t] for a tuple [t] of string literals *)
Definition in_strs (v : value) (t : list string) : bool :=
  existsb (eq_str v) t.

End Py.

Import Py.

(** ** The transport and its responses *)

(** [resp.text] is a plain string (httpx) or a coroutine function
    (aiohttp). *)
Inductive resp_text : Type :=
  | TextPlain (s : string)
  | TextCoroutine (s : string).

(** What the client reads of a response.  [status_code] is [None] when the
    attribute is missing or holds [None]; [status] is [None] when the
    attribute is missing; [raise_for_status] is [Some detail] when calling
    it raises the transport's HTTP status error and [None] when it
    returns. *)
Record response : Type := {
  status_code : option Z;
  status : option Z;
  text : resp_text;
  raise_for_status : option string
}.

Record http_request : Type := {
  rq_url : value;
  rq_timeout : value;
  rq_kwargs : gmap string value
}.

(** The interactions of a coroutine with its collaborators, latest first;
    [EvPollAttempt] marks the entry into [_obtain_token_by_device_flow] and
    [EvResult] the result handed back by the token pipeline. *)
Inductive event : Type :=
  | EvPollAttempt
  | EvRequest (rq : http_request)
  | EvResult (r : gmap string value)
  | EvWarn (msg : string)
  | EvExitCheck
  | EvSleep (secs : Z).

Inductive outcome (A : Type) : Type :=
  | Returned (a : A)
  | Raised (e : exn)
  | OutOfFuel.
Arguments Returned {A} a.
Arguments Raised {A} e.
Arguments OutOfFuel {A}.

(** The host: its float arithmetic, its clock [time.time()], whose
    readings are floats, its JSON decoder [json.loads] and the
    interpreter's [__debug__] flag ([False] under [python -O], which
    strips [assert] statements). *)
Class Host (E : Type) : Type := {
  host_floats :: Floats;
  time_time : E → Q;
  time_is_float : ∀ env, is_float (time_time env);
  json_loads : string → string + value;
  debug_flag : bool
}.

(** The names bound at module level by the imports and definitions of
    oauth2.py, and the built-in names the module refers to. *)
Definition module_globals : list string :=
  ["json"; "time"; "Mapping"; "AbstractBaseClient"; "_get_content";
   "BaseClient"; "Client"].

Definition builtins : list string :=
  ["isinstance"; "callable"; "getattr"; "int"; "range"; "dict"; "ValueError"].

(** Modelled from the spec: the class constant [DEVICE_FLOW_RETRIABLE_ERRORS]
    of the base class [AbstractBaseClient], which is not part of the
    sources; the spec names the retriable set as [authorization_pending]
    and [slow_down]. *)
Definition DEVICE_FLOW_RETRIABLE_ERRORS : list string :=
  ["authorization_pending"; "slow_down"].

(** The refusal of a call that passes [grant_type] both by position and
    by keyword. *)
Definition grant_type_twice : exn :=
  TypeError "BaseClient._obtain_token() got multiple values for argument 'grant_type'".

Section Client.
Context {E : Type} `{Host E}.

Definition poster : Type := http_request → E → (string + response) * E.

(** [**kwargs] as a method finds it: the named parameters of
    [_obtain_token] a caller may pass through ([params], [data],
    [headers], [timeout], [post]), and the rest, which holds the keywords
    of any other name. *)
Record kwargs : Type := {
  kw_params : option value;
  kw_data : option value;
  kw_headers : option value;
  kw_timeout : option value;
  kw_post : option poster;
  kw_rest : gmap string value
}.

(** [self]: the attributes and helpers inherited from [AbstractBaseClient],
    which is not part of the sources and is taken as a parameter. *)
Record client : Type := {
  configuration : gmap string value;
  client_id : value;
  timeout : value;
  default_headers : gmap string value;
  session_post : poster;
  _prepare_token_request : string → value → value → value → gmap string value;
  _parse_token_resposne : string → string + gmap string value;
  _stringify : value → value;
  DEVICE_FLOW_GRANT_TYPE : string;
  DEVICE_FLOW_DEVICE_CODE : string
}.

Record state : Type := {
  st_flow : gmap string value;
  st_env : E;
  st_trace : list event
}.

Definition M (A : Type) : Type := state → outcome A * state.

Definition ret {A} (a : A) : M A := λ s, (Returned a, s).

Definition raise {A} (e : exn) : M A := λ s, (Raised e, s).

Definition out_of_fuel {A} : M A := λ s, (OutOfFuel, s).

Definition bind {A B} (m : M A) (k : A → M B) : M B :=
  λ s, match m s with
       | (Returned a, s') => k a s'
       | (Raised e, s') => (Raised e, s')
       | (OutOfFuel, s') => (OutOfFuel, s')
       end.

Definition lift {A} (x : exn + A) : M A :=
  match x with
  | inl e => raise e
  | inr a => ret a
  end.

Definition emit (ev : event) : M unit :=
  λ s, (Returned tt,
        {| st_flow := st_flow s; st_env := st_env s; st_trace := ev :: st_trace s |}).

Definition get_flow : M (gmap string value) := λ s, (Returned (st_flow s), s).

(** [flow[k] = v] *)
Definition setitem (k : string) (v : value) : M unit :=
  λ s, (Returned tt,
        {| st_flow := <[k := v]> (st_flow s); st_env := st_env s; st_trace := st_trace s |}).

(** [time.time()] *)
Definition now_ : M Q := λ s, (Returned (time_time (st_env s)), s).

(** Resolution of a global name inside a function body. *)
Definition lookup_name (n : string) : M unit :=
  if bool_decide (n ∈ module_globals ++ builtins) then ret tt
  else raise (NameError n).

(** [await send(url, timeout=..., **kw)] *)
Definition call_post (send : poster) (rq : http_request) : M response :=
  λ s, let '(r, env) := send rq (st_env s) in
       let s' := {| st_flow := st_flow s; st_env := env;
                    st_trace := EvRequest rq :: st_trace s |} in
       match r with
       | inl detail => (Raised (ConnectionFault detail), s')
       | inr resp => (Returned resp, s')
       end.

End Client.

Arguments poster : clear implicits.
Arguments kwargs : clear implicits.
Arguments client : clear implicits.
Arguments state : clear implicits.
Arguments M : clear implicits.

Declare Scope py_scope.
Delimit Scope py_scope with py.
Notation "x <- c ;; k" := (bind c (λ x, k))
  (at level 100, c at next level, right associativity) : py_scope.
Notation "c ;;; k" := (bind c (λ _, k))
  (at level 100, right associativity) : py_scope.
#[local] Open Scope py_scope.

(** ** The module [oauth2cli.aio.oauth2] *)

Section Oauth2.
Context {E : Type} `{Host E}.

(** [_get_content(http_resp)]: the text, awaited when it is a coroutine. *)
Definition _get_content (http_resp : response) : string :=
  match text http_resp with
  | TextPlain s => s
  | TextCoroutine s => s
  end.

(** [getattr(resp, "status_code", None) or resp.status] *)
Definition status_of (resp : response) : exn + Z :=
  let fallback :=
    match status resp with
    | Some c => inr c
    | None => inl (AttributeError "status")
    end in
  match status_code resp with
  | Some c => if Z.eqb c 0 then fallback else inr c
  | None => fallback
  end.

(** [resp.raise_for_status()] *)
Definition call_raise_for_status (resp : response) : M E unit :=
  match raise_for_status resp with
  | Some detail => raise (HTTPFault detail)
  | None => ret tt
  end.

(** A value used as a dictionary through its method [meth]. *)
Definition as_dict (v : value) (meth : string) : exn + gmap string value :=
  match v with
  | VDict d => inr d
  | _ => inl (AttributeError meth)
  end.

Definition _obtain_token (self : client E) (grant_type : string)
    (params data headers timeout_ : value) (post : option (poster E))
    (kw : gmap string value) : M E (gmap string value) :=
  let send := default (session_post self) post in
  url <- lift (getitem (configuration self) "token_endpoint") ;;
  let prepared := _prepare_token_request self grant_type params data headers in
  resp <- call_post send
            {| rq_url := url;
               rq_timeout := or_ timeout_ (timeout self);
               rq_kwargs := prepared ∪ kw |} ;;
  status_code <- lift (status_of resp) ;;
  (if Z.leb 500 status_code then call_raise_for_status resp else ret tt) ;;;
  match _parse_token_resposne self (_get_content resp) with
  | inl detail => raise (ParseFailure detail)
  | inr result => emit (EvResult result) ;;; ret result
  end.

(** [self._obtain_token(grant_type, data=data, **kwargs)]: a [grant_type]
    among the keywords meets the positional one, and the call is refused
    before the method is entered. *)
Definition relay_obtain_token (self : client E) (grant_type : string)
    (data : gmap string value) (kw : kwargs E) : M E (gmap string value) :=
  match kw_rest kw !! "grant_type" with
  | Some _ =>
      raise grant_type_twice
  | None =>
      _obtain_token self grant_type
        (default VNone (kw_params kw)) (VDict data)
        (default VNone (kw_headers kw)) (default VNone (kw_timeout kw))
        (kw_post kw) (kw_rest kw)
  end.

(** [kwargs.pop("data", {})] *)
Definition pop_data (kw : kwargs E) : M E (gmap string value) :=
  lift (as_dict (default (VDict ∅) (kw_data kw)) "update").

Definition obtain_token_by_refresh_token (self : client E)
    (refresh_token : string) (scope : value) (kw : kwargs E) : M E (gmap string value) :=
  (* assert isinstance(refresh_token, string_types); a text passes it once
     the names are resolved *)
  (if debug_flag
   then lookup_name "isinstance" ;;; lookup_name "string_types"
   else ret tt) ;;;
  data <- pop_data kw ;;
  let data := <["scope" := scope]> (<["refresh_token" := VStr refresh_token]> data) in
  relay_obtain_token self "refresh_token" data kw.

Definition DAE : string := "device_authorization_endpoint".

(** What [**kwargs] still relays to [session.post] after [data] and
    [headers] were popped; a [post] keyword is not a JSON value and is left
    out of the recorded request. *)
Definition relay_rest (kw : kwargs E) : gmap string value :=
  match kw_params kw with
  | Some p => <["params" := p]> (kw_rest kw)
  | None => kw_rest kw
  end.

Definition initiate_device_flow (self : client E) (scope timeout_ : value)
    (kw : kwargs E) : M E (gmap string value) :=
  if negb (truthy (get (configuration self) DAE VNone))
  then raise (ValueError "You need to provide device authorization endpoint")
  else
    _data <- pop_data kw ;;
    let _data := <["scope" := _stringify self (or_ scope (VList []))]>
                   (<["client_id" := client_id self]> _data) in
    url <- lift (getitem (configuration self) DAE) ;;
    extra <- lift (match default (VDict ∅) (kw_headers kw) with
                   | VDict h => inr h
                   | _ => inl (TypeError "argument after ** must be a mapping")
                   end) ;;
    resp <- call_post (session_post self)
              {| rq_url := url;
                 rq_timeout := or_ timeout_ (timeout self);
                 rq_kwargs := <["data" := VDict _data]>
                                (<["headers" := VDict (extra ∪ default_headers self)]>
                                   (relay_rest kw)) |} ;;
    loaded <- match json_loads (_get_content resp) with
              | inl detail => raise (ParseFailure detail)
              | inr v => ret v
              end ;;
    flow <- lift (as_dict loaded "get") ;;
    interval <- lift (Py.int (get flow "interval" (VInt 5))) ;;
    let flow := <["interval" := VInt interval]> flow in
    expires_in <- lift (Py.int (get flow "expires_in" (VInt 1800))) ;;
    let flow := <["expires_in" := VInt expires_in]> flow in
    t <- now_ ;;
    e <- lift (getitem flow "expires_in") ;;
    expires_at <- lift (add (VFloat t) e) ;;
    let flow := <["expires_at" := expires_at]> flow in
    ret flow.

(** [flow.get("latest_attempt_at", 0) + flow.get("interval", 5) - skew > now] *)
Definition too_soon (flow : gmap string value) (now : Q) : exn + bool :=
  match add (get flow "latest_attempt_at" (VInt 0)) (get flow "interval" (VInt 5)) with
  | inl e => inl e
  | inr a =>
      match sub a (VInt 1) with
      | inl e => inl e
      | inr b => gt_float b now
      end
  end.

Definition _obtain_token_by_device_flow (self : client E) (kw : kwargs E)
    : M E (gmap string value) :=
  emit EvPollAttempt ;;;
  now <- now_ ;;
  flow <- get_flow ;;
  early <- lift (too_soon flow now) ;;
  (if early : bool
   then lookup_name "warnings" ;;;
        emit (EvWarn "Attempted too soon. Please do sleep(flow[interval])")
   else ret tt) ;;;
  data <- pop_data kw ;;
  device_code <- lift (getitem flow "device_code") ;;
  let data := <[DEVICE_FLOW_DEVICE_CODE self := device_code]>
                (<["client_id" := client_id self]> data) in
  result <- relay_obtain_token self (DEVICE_FLOW_GRANT_TYPE self) data kw ;;
  (if eq_str (get result "error" VNone) "slow_down"
   then flow <- get_flow ;;
        v <- lift (add (get flow "interval" (VInt 5)) (VInt 5)) ;;
        setitem "interval" v
   else ret tt) ;;;
  setitem "latest_attempt_at" (VFloat now) ;;;
  ret result.

Definition exit_fn : Type := gmap string value → E → exn + bool.
Definition sleep_fn : Type := Z → E → E.

(** [lambda flow: flow.get("expires_at", 0) < time.time()] *)
Definition default_exit_condition : exit_fn :=
  λ flow env, lt_float (get flow "expires_at" (VInt 0)) (time_time env).

(** [exit_condition(flow)] *)
Definition check (exit_condition : exit_fn) : M E bool :=
  emit EvExitCheck ;;;
  (λ s, lift (exit_condition (st_flow s) (st_env s)) s).

(** [await sleeper(1)] *)
Definition sleep (sleeper : sleep_fn) (secs : Z) : M E unit :=
  λ s, (Returned tt,
        {| st_flow := st_flow s; st_env := sleeper secs (st_env s);
           st_trace := EvSleep secs :: st_trace s |}).

(** The [for i in range(...)] of the poller, [rounds] rounds to go:
    [Some result] is [return result], [None] is the end of the wait. *)
Fixpoint wait (exit_condition : exit_fn) (sleeper : sleep_fn) (rounds : nat)
    (result : gmap string value) : M E (option (gmap string value)) :=
  match rounds with
  | O => ret None
  | S k =>
      stop <- check exit_condition ;;
      if stop : bool then ret (Some result)
      else sleep sleeper 1 ;;; wait exit_condition sleeper k result
  end.

Definition retriable (result : gmap string value) : bool :=
  in_strs (get result "error" VNone) DEVICE_FLOW_RETRIABLE_ERRORS.

(** One round of [while True]: [Some result] is [return result], [None]
    falls through to the next round. *)
Definition iteration (self : client E) (exit_condition : exit_fn)
    (sleeper : sleep_fn) (kw : kwargs E) : M E (option (gmap string value)) :=
  result <- _obtain_token_by_device_flow self kw ;;
  if negb (retriable result) then ret (Some result)
  else
    flow <- get_flow ;;
    rounds <- lift (range (get flow "interval" (VInt 5))) ;;
    wait exit_condition sleeper rounds result.

Fixpoint poll (self : client E) (exit_condition : exit_fn) (sleeper : sleep_fn)
    (kw : kwargs E) (fuel : nat) : M E (gmap string value) :=
  match fuel with
  | O => out_of_fuel
  | S fuel' =>
      r <- iteration self exit_condition sleeper kw ;;
      match r with
      | Some result => ret result
      | None => poll self exit_condition sleeper kw fuel'
      end
  end.

Definition obtain_token_by_device_flow (self : client E)
    (exit_condition : option exit_fn) (sleeper : option sleep_fn)
    (kw : kwargs E) (fuel : nat) : M E (gmap string value) :=
  match sleeper with
  | None => raise (ValueError "You need to provide something like asyncio.sleep")
  | Some sleeper =>
      poll self (default default_exit_condition exit_condition) sleeper kw fuel
  end.

(** [Client.obtain_token_by_username_password] *)
Definition obtain_token_by_username_password (self : client E)
    (username password scope : value) (kw : kwargs E) : M E (gmap string value) :=
  data <- pop_data kw ;;
  let data := <["scope" := scope]>
                (<["password" := password]> (<["username" := username]> data)) in
  relay_obtain_token self "password" data kw.

(** [Client.obtain_token_for_client] *)
Definition obtain_token_for_client (self : client E) (scope : value)
    (kw : kwargs E) : M E (gmap string value) :=
  data <- pop_data kw ;;
  relay_obtain_token self "client_credentials" (<["scope" := scope]> data) kw.

End Oauth2.

Arguments exit_fn : clear implicits.
Arguments sleep_fn : clear implicits.

(** ** Reading a trace *)

Definition is_attempt (ev : event) : bool :=
  match ev with EvPollAttempt => true | _ => false end.

Definition is_request (ev : event) : bool :=
  match ev with EvRequest _ => true | _ => false end.

Definition is_sleep (ev : event) : bool :=
  match ev with EvSleep _ => true | _ => false end.

Definition is_exit_check (ev : event) : bool :=
  match ev with EvExitCheck => true | _ => false end.

Definition is_slow_down (result : gmap string value) : bool :=
  eq_str (get result "error" VNone) "slow_down".

Definition is_slow_down_result (ev : event) : bool :=
  match ev with EvResult r => is_slow_down r | _ => false end.

Fixpoint count (p : event → bool) (evs : list event) : nat :=
  match evs with
  | [] => O
  | ev :: rest => (if p ev then 1 else 0) + count p rest
  end%nat.

(** The trace left by [j] full rounds of the wait: an exit check, then a
    one-second sleep, [j] times over (latest first). *)
Fixpoint rounds_trace (j : nat) (older : list event) : list event :=
  match j with
  | O => older
  | S k => rounds_trace k (EvSleep 1 :: EvExitCheck :: older)
  end.

(** The environment after [j] one-second sleeps. *)
Fixpoint slept {E : Type} (sleeper : sleep_fn E) (j : nat) (env : E) : E :=
  match j with
  | O => env
  | S k => slept sleeper k (sleeper 1 env)
  end.

(** The state after [j] full rounds of the wait, and after one more exit
    check. *)
Definition after_rounds {E : Type} (sleeper : sleep_fn E) (j : nat)
    (s : state E) : state E :=
  {| st_flow := st_flow s; st_env := slept sleeper j (st_env s);
     st_trace := rounds_trace j (st_trace s) |}.

Definition checked {E : Type} (s : state E) : state E :=
  {| st_flow := st_flow s; st_env := st_env s;
     st_trace := EvExitCheck :: st_trace s |}.

(** The backoff relation between two states of a session: the interval has
    grown by five seconds for every [slow_down] result received in
    between. *)
Definition backoff_step {E : Type} (s s' : state E) : Prop :=
  ∀ i, get (st_flow s) "interval" (VInt 5) = VInt i →
    ∃ evs, st_trace s' = evs ++ st_trace s ∧
           get (st_flow s') "interval" (VInt 5)
           = VInt (i + 5 * Z.of_nat (count is_slow_down_result evs)).

(** A stretch of trace is well paced when it has no more requests than
    poll attempts, no more exit checks than sleeps and attempts together,
    and only one-second sleeps. *)
Definition one_second (ev : event) : Prop :=
  match ev with
  | EvSleep secs => secs = 1
  | _ => True
  end.

Definition well_paced (evs : list event) : Prop :=
  (count is_request evs ≤ count is_attempt evs)%nat ∧
  (count is_exit_check evs ≤ count is_sleep evs + count is_attempt evs)%nat ∧
  Forall one_second evs.

(** ** A scripted host, for running the client on concrete inputs *)

Module Double.

(** The clock reading and the replies the transport will give, in order. *)
Record world : Type := {
  clock : Q;
  inbox : list (string + response)
}.

Definition post : poster world :=
  λ rq w,
    match inbox w with
    | [] => (inl "connection refused", w)
    | r :: rest => (r, {| clock := clock w; inbox := rest |})
    end.

Definition sleeper : sleep_fn world :=
  λ secs w, {| clock := clock w + inject_Z secs; inbox := inbox w |}.

(** The decoder double: the body of a scripted reply names the JSON
    document it stands for. *)
Definition documents : list (string * gmap string value) :=
  [ ("pending", {[ "error" := VStr "authorization_pending" ]});
    ("slow_down", {[ "error" := VStr "slow_down" ]});
    ("denied", {[ "error" := VStr "access_denied" ]});
    ("token", {[ "access_token" := VStr "abc" ]});
    ("flow", {[ "device_code" := VStr "dc" ]});
    ("flow_text_interval",
      <[ "interval" := VStr "10" ]> {[ "device_code" := VStr "dc" ]}) ].

Fixpoint find_document (body : string)
    (table : list (string * gmap string value)) : string + gmap string value :=
  match table with
  | [] => inl "not a JSON document"
  | (name, doc) :: rest =>
      if String.eqb body name then inr doc else find_document body rest
  end.

(** The floats of the scripted host: every rational is a float, sums and
    differences are exact, and an integer converts to itself below the
    overflow threshold of binary64. *)
Definition float_limit : Z := 2 ^ 1024 - 2 ^ 970.

Definition exact_of_int (z : Z) : option Q :=
  if Z.ltb (Z.abs z) float_limit then Some (inject_Z z) else None.

Lemma exact_of_int_nonneg (z : Z) (q : Q) :
  0 ≤ z → exact_of_int z = Some q → (0 <= q)%Q.
Proof.
  unfold exact_of_int. intros Hz.
  destruct (Z.ltb (Z.abs z) float_limit); [|done].
  intros [= <-]. unfold Qle. simpl. lia.
Qed.

Lemma exact_add_nonneg (t x : Q) :
  True → True → (0 <= x)%Q → (t <= t + x)%Q.
Proof.
  intros _ _ Hx. rewrite <- (Qplus_0_r t) at 1. by apply Qplus_le_r.
Qed.

Definition floats : Floats := {|
  is_float := λ _, True;
  float_of_int := exact_of_int;
  float_add := λ p q, FFinite (p + q);
  float_sub := λ p q, FFinite (p - q);
  float_of_int_is_float := λ _ _ _, I;
  float_of_int_nonneg := exact_of_int_nonneg;
  float_add_nonneg := exact_add_nonneg
|}.

#[export] Instance host : Host world := {|
  host_floats := floats;
  time_time := clock;
  time_is_float := λ _, I;
  json_loads := λ body,
    match find_document body documents with
    | inl detail => inl detail
    | inr doc => inr (VDict doc)
    end;
  debug_flag := true
|}.

Definition reply (code : Z) (body : string) : string + response :=
  inr {| status_code := Some code; status := None; text := TextPlain body;
         raise_for_status :=
           if Z.leb 400 code then Some "HTTP status error" else None |}.

Definition self : client world := {|
  configuration :=
    <[ "token_endpoint" := VStr "https://idp.example/token" ]>
      {[ DAE := VStr "https://idp.example/devicecode" ]};
  client_id := VStr "client";
  timeout := VNone;
  default_headers := ∅;
  session_post := post;
  _prepare_token_request := λ grant_type params data headers,
    <[ "params" := params ]>
      (<[ "headers" := headers ]>
         {[ "data" := match data with
                      | VDict d => VDict (<[ "grant_type" := VStr grant_type ]> d)
                      | _ => data
                      end ]});
  _parse_token_resposne := λ body, find_document body documents;
  _stringify := λ scope, scope;
  DEVICE_FLOW_GRANT_TYPE := "device_code";
  DEVICE_FLOW_DEVICE_CODE := "device_code"
|}.

(** The same client without a device authorization endpoint. *)
Definition self_no_dae : client world := {|
  configuration := {[ "token_endpoint" := VStr "https://idp.example/token" ]};
  client_id := client_id self;
  timeout := timeout self;
  default_headers := default_headers self;
  session_post := session_post self;
  _prepare_token_request := _prepare_token_request self;
  _parse_token_resposne := _parse_token_resposne self;
  _stringify := _stringify self;
  DEVICE_FLOW_GRANT_TYPE := DEVICE_FLOW_GRANT_TYPE self;
  DEVICE_FLOW_DEVICE_CODE := DEVICE_FLOW_DEVICE_CODE self
|}.

Definition no_kwargs : kwargs world := {|
  kw_params := None; kw_data := None; kw_headers := None;
  kw_timeout := None; kw_post := None; kw_rest := ∅
|}.

Definition start (flow : gmap string value) (t : Q)
    (replies : list (string + response)) : state world :=
  {| st_flow := flow; st_env := {| clock := t; inbox := replies |};
     st_trace := [] |}.

Definition always : exit_fn world := λ _ _, inr true.
Definition never : exit_fn world := λ _ _, inr false.

(** A flow as [initiate_device_flow] leaves it, polled for the first time
    at [t = 1000]. *)
Definition fresh_flow : gmap string value :=
  <["interval" := VInt 5]> (<["expires_at" := VFloat 2800]>
    {[ "device_code" := VStr "dc" ]}).

(** A flow whose provider asked for no wait at all between polls. *)
Definition eager_flow : gmap string value :=
  <["interval" := VInt 0]> {[ "device_code" := VStr "dc" ]}.

(** A flow polled at [t = 1000] and due again at [t = 1005]. *)
Definition polled_flow : gmap string value :=
  <["latest_attempt_at" := VFloat 1000]> fresh_flow.

Definition pending : gmap string value :=
  {[ "error" := VStr "authorization_pending" ]}.

Definition token : gmap string value := {[ "access_token" := VStr "abc" ]}.

End Double.

(** ** A provider that sends unusual documents *)

Module Sloppy.

Definition documents : list (string * value) :=
  [ ("flow_vague_interval",
      VDict (<[ "interval" := VStr "soon" ]> {[ "device_code" := VStr "dc" ]}));
    ("codes", VList [VStr "dc"]) ].

Fixpoint find_value (body : string) (table : list (string * value))
    : string + value :=
  match table with
  | [] => inl "not a JSON document"
  | (name, doc) :: rest =>
      if String.eqb body name then inr doc else find_value body rest
  end.

(** The scripted host with this provider's decoder. *)
Definition host : Host Double.world := {|
  host_floats := Double.floats;
  time_time := Double.clock;
  time_is_float := λ _, I;
  json_loads := λ body, find_value body documents;
  debug_flag := true
|}.

(** A client whose configuration names no token endpoint. *)
Definition self_no_token_endpoint : client Double.world := {|
  configuration := {[ DAE := VStr "https://idp.example/devicecode" ]};
  client_id := client_id Double.self;
  timeout := timeout Double.self;
  default_headers := default_headers Double.self;
  session_post := session_post Double.self;
  _prepare_token_request := _prepare_token_request Double.self;
  _parse_token_resposne := _parse_token_resposne Double.self;
  _stringify := _stringify Double.self;
  DEVICE_FLOW_GRANT_TYPE := DEVICE_FLOW_GRANT_TYPE Double.self;
  DEVICE_FLOW_DEVICE_CODE := DEVICE_FLOW_DEVICE_CODE Double.self
|}.

(** A reply that exposes neither [status_code] nor [status]. *)
Definition statusless_reply (body : string) : string + response :=
  inr {| status_code := None; status := None; text := TextCoroutine body;
         raise_for_status := None |}.

(** A reply whose [raise_for_status] returns whatever the status. *)
Definition silent_reply (code : Z) (body : string) : string + response :=
  inr {| status_code := Some code; status := None; text := TextPlain body;
         raise_for_status := None |}.

(** Keywords that name [grant_type] once more. *)
Definition grant_type_again : kwargs Double.world := {|
  kw_params := None; kw_data := None; kw_headers := None;
  kw_timeout := None; kw_post := None;
  kw_rest := {[ "grant_type" := VStr "password" ]}
|}.

(** Keywords whose [data] is [None]. *)
Definition data_none : kwargs Double.world := {|
  kw_params := None; kw_data := Some VNone; kw_headers := None;
  kw_timeout := None; kw_post := None; kw_rest := ∅
|}.

(** A flow as a provider may send it, its interval still text. *)
Definition raw_flow : gmap string value :=
  <["interval" := VStr "5"]> {[ "device_code" := VStr "dc" ]}.

Definition slow_down : gmap string value := {[ "error" := VStr "slow_down" ]}.

End Sloppy.

(** * Verification *)

Section Properties.
Context {E : Type} `{Host E}.

Implicit Types (self : client E) (kw : kwargs E) (s : state E).
Implicit Types (ec : exit_fn E) (sl : sleep_fn E).

(** ** Name resolution *)

Lemma lookup_warnings :
  lookup_name (E := E) "warnings" = raise (NameError "warnings").
Proof. reflexivity. Qed.

Lemma lookup_string_types :
  lookup_name (E := E) "string_types" = raise (NameError "string_types").
Proof. reflexivity. Qed.

Lemma lookup_isinstance : lookup_name (E := E) "isinstance" = ret tt.
Proof. reflexivity. Qed.

(** ** Counting over traces *)

Lemma count_app p (xs ys : list event) :
  count p (xs ++ ys) = (count p xs + count p ys)%nat.
Proof.
  induction xs as [|x xs IH]; simpl; [done|].
  rewrite IH. lia.
Qed.

Lemma count_rounds_trace p j older :
  count p (rounds_trace j older) =
  (j * ((if p (EvSleep 1) then 1 else 0) + (if p EvExitCheck then 1 else 0))
   + count p older)%nat.
Proof.
  revert older. induction j as [|j IH]; intros older; simpl; [done|].
  rewrite IH. simpl. lia.
Qed.

Lemma rounds_trace_app j older :
  ∃ evs, rounds_trace j older = evs ++ older ∧
         count is_attempt evs = 0%nat ∧
         count is_slow_down_result evs = 0%nat.
Proof.
  revert older. induction j as [|j IH]; intros older; simpl.
  - by exists [].
  - destruct (IH (EvSleep 1 :: EvExitCheck :: older)) as (evs & -> & Ha & Hs).
    exists (evs ++ [EvSleep 1; EvExitCheck]).
    rewrite <- app_assoc. split; [done|].
    rewrite !count_app, Ha, Hs. done.
Qed.

(** ** The token pipeline *)

(** What a call of [_obtain_token] leaves behind: the flow is untouched,
    and the trace grows by nothing (no token endpoint), by the request
    (a fault or a failed parse), or by the request and the result. *)
Lemma obtain_token_cases self grant_type params data headers tmo post rest s :
  ∃ out s',
    _obtain_token self grant_type params data headers tmo post rest s = (out, s') ∧
    st_flow s' = st_flow s ∧
    ((∃ e, out = Raised e ∧
           (st_trace s' = st_trace s ∨
            ∃ rq, st_trace s' = EvRequest rq :: st_trace s)) ∨
     (∃ r rq, out = Returned r ∧
              st_trace s' = EvResult r :: EvRequest rq :: st_trace s)).
Proof.
  unfold _obtain_token, bind, lift, call_post, call_raise_for_status, emit,
    raise, ret.
  destruct (getitem _ _) as [e|url]; simpl; [by eauto 10|].
  match goal with
  | |- context [default (session_post self) post ?rq ?env] =>
      destruct (default (session_post self) post rq env) as [[detail|resp] env']
  end; simpl; [by eauto 10|].
  destruct (status_of resp) as [e|code]; simpl; [by eauto 10|].
  destruct (Z.leb 500 code); simpl.
  - destruct (raise_for_status resp); simpl; [by eauto 10|].
    destruct (_parse_token_resposne _ _); simpl; by eauto 10.
  - destruct (_parse_token_resposne _ _); simpl; by eauto 10.
Qed.

Lemma obtain_token_never_out_of_fuel self grant_type params data headers tmo post rest s :
  (_obtain_token self grant_type params data headers tmo post rest s).1 ≠ OutOfFuel.
Proof.
  destruct (obtain_token_cases self grant_type params data headers tmo post rest s)
    as (out & s' & -> & _ & [(e & -> & _)|(r & rq & -> & _)]); done.
Qed.

(** [_get_content] gives the text of the response, of either kind. *)
Lemma get_content_text (resp : response) (body : string) :
  text resp = TextPlain body ∨ text resp = TextCoroutine body →
  _get_content resp = body.
Proof. unfold _get_content. by intros [-> | ->]. Qed.

(** C7, as the code has it.  For a response the transport delivered, with
    body text [body]: below 500, also for a non-2xx status,
    [_obtain_token] hands [body] to the response interpreter and returns
    what it gives, success or OAuth2 error alike, without consulting
    [raise_for_status]; at 500 or above it calls the response's
    [raise_for_status], raises what that raises, right after the request,
    and goes on to the interpreter when that returns.  So the transport's
    fault is raised exactly when the status code is at least 500 and
    [raise_for_status] raises. *)
Theorem obtain_token_status_code
    self grant_type params data headers tmo post rest s url resp env' code body :
  configuration self !! "token_endpoint" = Some url →
  let rq := {| rq_url := url;
               rq_timeout := or_ tmo (timeout self);
               rq_kwargs := _prepare_token_request self grant_type params data headers
                              ∪ rest |} in
  default (session_post self) post rq (st_env s) = (inr resp, env') →
  status_of resp = inr code →
  text resp = TextPlain body ∨ text resp = TextCoroutine body →
  let sent := {| st_flow := st_flow s; st_env := env';
                 st_trace := EvRequest rq :: st_trace s |} in
  let interpreted :=
    match _parse_token_resposne self body with
    | inl detail => (Raised (ParseFailure detail), sent)
    | inr result =>
        (Returned result,
         {| st_flow := st_flow s; st_env := env';
            st_trace := EvResult result :: EvRequest rq :: st_trace s |})
    end in
  let run := _obtain_token self grant_type params data headers tmo post rest s in
  (code < 500 → run = interpreted) ∧
  (500 ≤ code →
   run = match raise_for_status resp with
         | Some detail => (Raised (HTTPFault detail), sent)
         | None => interpreted
         end) ∧
  ((∃ detail, run.1 = Raised (HTTPFault detail)) ↔
   500 ≤ code ∧ is_Some (raise_for_status resp)).
Proof.
  intros Hurl rq Hpost Hcode Htext sent interpreted run.
  assert (Hrun : run = if Z.leb 500 code
                       then match raise_for_status resp with
                            | Some detail => (Raised (HTTPFault detail), sent)
                            | None => interpreted
                            end
                       else interpreted).
  { subst run interpreted.
    unfold _obtain_token, bind, lift, call_post, getitem, call_raise_for_status.
    rewrite Hurl. simpl. fold rq. rewrite Hpost. simpl. rewrite Hcode. simpl.
    rewrite (get_content_text resp body Htext).
    destruct (Z.leb 500 code); [destruct (raise_for_status resp)|]; simpl;
      try done; by destruct (_parse_token_resposne self body). }
  assert (Hquiet : ∀ detail, interpreted.1 ≠ Raised (HTTPFault detail)).
  { intros detail. subst interpreted.
    by destruct (_parse_token_resposne self body). }
  rewrite Hrun. destruct (Z.leb 500 code) eqn:Hle.
  - apply Z.leb_le in Hle. split; [lia|]. split; [done|].
    destruct (raise_for_status resp) as [detail|]; simpl.
    + split; [by eauto | by eauto].
    + split; [intros [detail Hfault]; by destruct (Hquiet detail)|].
      intros [_ [detail Hnone]]. done.
  - apply Z.leb_gt in Hle. split; [done|]. split; [lia|].
    split; [intros [detail Hfault]; by destruct (Hquiet detail) | lia].
Qed.

(** When [raise_for_status] returns, the pipeline goes on to the
    interpreter whatever the status code is. *)
Lemma obtain_token_lenient_response
    self grant_type params data headers tmo post rest s url resp env' code result :
  configuration self !! "token_endpoint" = Some url →
  default (session_post self) post
    {| rq_url := url; rq_timeout := or_ tmo (timeout self);
       rq_kwargs := _prepare_token_request self grant_type params data headers
                      ∪ rest |} (st_env s) = (inr resp, env') →
  status_of resp = inr code →
  raise_for_status resp = None →
  _parse_token_resposne self (_get_content resp) = inr result →
  (_obtain_token self grant_type params data headers tmo post rest s).1
  = Returned result.
Proof.
  intros Hurl Hpost Hcode Hquiet Hparse.
  unfold _obtain_token, bind, lift, call_post, getitem, call_raise_for_status.
  rewrite Hurl. simpl. rewrite Hpost. simpl. rewrite Hcode. simpl.
  rewrite Hquiet, Hparse. by destruct (Z.leb 500 code).
Qed.

(** C6. Configuration errors come before any network activity:
    [initiate_device_flow] without a device authorization endpoint, and
    [obtain_token_by_device_flow] without a sleeper, raise [ValueError] and
    leave the state as it was: nothing was requested, no attempt was
    made. *)
Theorem configuration_errors_before_network
    self scope tmo kw (exit_condition : option (exit_fn E)) fuel s :
  (truthy (get (configuration self) DAE VNone) = false →
   initiate_device_flow self scope tmo kw s
   = (Raised (ValueError "You need to provide device authorization endpoint"), s))
  ∧ obtain_token_by_device_flow self exit_condition None kw fuel s
    = (Raised (ValueError "You need to provide something like asyncio.sleep"), s).
Proof.
  split; [|done].
  intros Hdae. unfold initiate_device_flow. by rewrite Hdae.
Qed.

(** ** The refresh token grant *)

(** With assertions on, the [assert] of [obtain_token_by_refresh_token]
    looks up [string_types], a name the module never binds. *)
Lemma refresh_token_assert_fails self refresh_token scope kw s :
  debug_flag = true →
  obtain_token_by_refresh_token self refresh_token scope kw s
  = (Raised (NameError "string_types"), s).
Proof.
  intros Hdebug. unfold obtain_token_by_refresh_token. rewrite Hdebug.
  rewrite lookup_isinstance, lookup_string_types. done.
Qed.

(** Under [python -O] the [assert] is gone, and the grant is one call of
    the pipeline with the refresh token and the scope in the body. *)
Lemma refresh_token_without_assert self refresh_token scope kw s body :
  debug_flag = false →
  as_dict (default (VDict ∅) (kw_data kw)) "update" = inr body →
  obtain_token_by_refresh_token self refresh_token scope kw s
  = relay_obtain_token self "refresh_token"
      (<["scope" := scope]> (<["refresh_token" := VStr refresh_token]> body)) kw s.
Proof.
  intros Hdebug Hbody. unfold obtain_token_by_refresh_token, pop_data.
  rewrite Hdebug, Hbody. done.
Qed.

(** ** One poll attempt *)

(** What a call of [_obtain_token_by_device_flow] leaves behind.  It either
    raises, with the flow untouched, or returns the pipeline's result after
    one request, with the backoff applied and the attempt time recorded. *)
Lemma attempt_cases self kw s :
  let now := time_time (st_env s) in
  ∃ out s1,
    _obtain_token_by_device_flow self kw s = (out, s1) ∧
    ((∃ e, out = Raised e ∧ st_flow s1 = st_flow s ∧
           (st_trace s1 = EvPollAttempt :: st_trace s ∨
            (∃ rq, st_trace s1 = EvRequest rq :: EvPollAttempt :: st_trace s) ∨
            (∃ r rq,
               st_trace s1 = EvResult r :: EvRequest rq :: EvPollAttempt :: st_trace s ∧
               is_slow_down r = true ∧
               add (get (st_flow s) "interval" (VInt 5)) (VInt 5) = inl e))) ∨
     (∃ r rq, out = Returned r ∧
        st_trace s1 = EvResult r :: EvRequest rq :: EvPollAttempt :: st_trace s ∧
        too_soon (st_flow s) now = inr false ∧
        st_flow s1 =
          <["latest_attempt_at" := VFloat now]>
            (if is_slow_down r
             then match add (get (st_flow s) "interval" (VInt 5)) (VInt 5) with
                  | inr v => <["interval" := v]> (st_flow s)
                  | inl _ => st_flow s
                  end
             else st_flow s))).
Proof.
  intros now. subst now.
  unfold _obtain_token_by_device_flow, bind, emit, now_, get_flow, lift. simpl.
  destruct (too_soon (st_flow s) (time_time (st_env s))) as [e|[|]] eqn:Hsoon;
    simpl; [by eauto 12 | by eauto 12 |].
  unfold pop_data, lift.
  destruct (as_dict _ _) as [e|body]; simpl; [by eauto 12|].
  destruct (getitem (st_flow s) "device_code") as [e|device_code]; simpl;
    [by eauto 12|].
  unfold relay_obtain_token.
  destruct (kw_rest kw !! "grant_type"); simpl; [by eauto 12|].
  match goal with
  | |- context [_obtain_token ?c ?g ?p ?d ?h ?t ?po ?r ?s0] =>
      destruct (obtain_token_cases c g p d h t po r s0)
        as (out & s' & -> & Hflow & Hcases)
  end.
  simpl in Hflow.
  destruct Hcases as [(e & -> & Htrace)|(r & rq & -> & Htrace)]; simpl in *.
  { do 2 eexists. split; [done|]. left. exists e. split; [done|].
    split; [done|]. destruct Htrace as [->|[rq ->]]; by eauto. }
  fold (is_slow_down r).
  destruct (is_slow_down r) eqn:Hslow; simpl.
  - rewrite Hflow.
    destruct (add (get (st_flow s) "interval" (VInt 5)) (VInt 5)) as [e|v] eqn:Hadd;
      simpl.
    + do 2 eexists. split; [done|]. left. exists e. rewrite Htrace.
      split; [done|]. split; [done|]. right. right. by eauto.
    + do 2 eexists. split; [done|]. right. exists r, rq. simpl.
      rewrite Hflow, Htrace, Hslow. done.
  - do 2 eexists. split; [done|]. right. exists r, rq. simpl.
    rewrite Hflow, Htrace, Hslow. done.
Qed.

(** A premature attempt looks up [warnings], a name the module never
    binds, and stops there: no request is sent, the flow is untouched. *)
Lemma premature_attempt_fails self kw s :
  too_soon (st_flow s) (time_time (st_env s)) = inr true →
  _obtain_token_by_device_flow self kw s
  = (Raised (NameError "warnings"),
     {| st_flow := st_flow s; st_env := st_env s;
        st_trace := EvPollAttempt :: st_trace s |}).
Proof.
  intros Hsoon.
  unfold _obtain_token_by_device_flow, bind, emit, now_, get_flow, lift. simpl.
  rewrite Hsoon. done.
Qed.

(** A poll attempt writes no key but [interval] and [latest_attempt_at]. *)
Lemma attempt_frame self kw s k :
  k ≠ "interval" → k ≠ "latest_attempt_at" →
  st_flow (_obtain_token_by_device_flow self kw s).2 !! k = st_flow s !! k.
Proof.
  intros Hi Hl.
  destruct (attempt_cases self kw s) as (out & s1 & -> & Hcases). simpl.
  destruct Hcases as [(e & _ & -> & _)|(r & rq & _ & _ & _ & ->)]; [done|].
  rewrite lookup_insert_ne by done.
  destruct (is_slow_down r); [|done].
  destruct (add _ _); [done|]. by rewrite lookup_insert_ne.
Qed.

(** A poll attempt is one attempt: it neither sleeps nor consults the exit
    condition. *)
Lemma attempt_counts self kw s :
  let s1 := (_obtain_token_by_device_flow self kw s).2 in
  count is_attempt (st_trace s1) = S (count is_attempt (st_trace s)) ∧
  count is_sleep (st_trace s1) = count is_sleep (st_trace s) ∧
  count is_exit_check (st_trace s1) = count is_exit_check (st_trace s).
Proof.
  destruct (attempt_cases self kw s) as (out & s1 & -> & Hcases). simpl.
  destruct Hcases as
    [(e & _ & _ & [->|[(rq & ->)|(r & rq & -> & _)]])|(r & rq & _ & -> & _)];
    done.
Qed.

(** ** The wait phase *)

(** One round of the wait: the exit check, then the sleep. *)
Lemma wait_step ec sl n r s :
  wait ec sl (S n) r s =
  match ec (st_flow s) (st_env s) with
  | inl e => (Raised e, checked s)
  | inr true => (Returned (Some r), checked s)
  | inr false => wait ec sl n r (after_rounds sl 1 s)
  end.
Proof.
  simpl. unfold check. unfold bind, emit, lift, sleep. simpl.
  destruct (ec (st_flow s) (st_env s)) as [e|[|]]; reflexivity.
Qed.

(** The exit condition first holds at the check of round [j]: the wait
    returns the result after [j] sleeps, each preceded by a check. *)
Lemma wait_exit ec sl n j r s :
  (j < n)%nat →
  (∀ i, (i < j)%nat → ec (st_flow s) (slept sl i (st_env s)) = inr false) →
  ec (st_flow s) (slept sl j (st_env s)) = inr true →
  wait ec sl n r s = (Returned (Some r), checked (after_rounds sl j s)).
Proof.
  revert j s. induction n as [|n IH]; intros j s Hj Hbefore Hat; [lia|].
  rewrite wait_step. destruct j as [|j].
  - simpl in Hat. rewrite Hat. done.
  - pose proof (Hbefore 0%nat ltac:(lia)) as Hfirst. simpl in Hfirst.
    rewrite Hfirst.
    rewrite (IH j); [done | lia | | done].
    intros i Hi. apply (Hbefore (S i)). lia.
Qed.

(** The exit condition holds at none of the [n] checks: the wait ends
    after [n] sleeps and hands over to the next attempt. *)
Lemma wait_elapsed ec sl n r s :
  (∀ i, (i < n)%nat → ec (st_flow s) (slept sl i (st_env s)) = inr false) →
  wait ec sl n r s = (Returned None, after_rounds sl n s).
Proof.
  revert s. induction n as [|n IH]; intros s Hnever.
  - by destruct s.
  - pose proof (Hnever 0%nat ltac:(lia)) as Hfirst. simpl in Hfirst.
    rewrite wait_step, Hfirst.
    rewrite IH; [done|].
    intros i Hi. apply (Hnever (S i)). lia.
Qed.

(** Every run of the wait is one of these, or stops at a check that
    raised. *)
Lemma wait_cases ec sl n r s :
  wait ec sl n r s = (Returned None, after_rounds sl n s) ∨
  ∃ j, (j < n)%nat ∧
       (wait ec sl n r s = (Returned (Some r), checked (after_rounds sl j s)) ∨
        ∃ e, wait ec sl n r s = (Raised e, checked (after_rounds sl j s))).
Proof.
  revert s. induction n as [|n IH]; intros s.
  - left. by destruct s.
  - rewrite wait_step.
    destruct (ec (st_flow s) (st_env s)) as [e|[|]].
    + right. exists 0%nat. split; [lia|]. right. by exists e.
    + right. exists 0%nat. split; [lia|]. by left.
    + destruct (IH (after_rounds sl 1 s)) as [->|(j & Hj & Hw)].
      * by left.
      * right. exists (S j). split; [lia|].
        destruct Hw as [->|[e ->]]; [by left | right; by exists e].
Qed.

Lemma wait_flow ec sl n r s : st_flow (wait ec sl n r s).2 = st_flow s.
Proof.
  destruct (wait_cases ec sl n r s) as [->|(j & _ & [->|[e ->]])]; done.
Qed.

Lemma wait_attempts ec sl n r s :
  count is_attempt (st_trace (wait ec sl n r s).2) = count is_attempt (st_trace s).
Proof.
  destruct (wait_cases ec sl n r s) as [->|(j & _ & [->|[e ->]])]; simpl;
    rewrite count_rounds_trace; simpl; lia.
Qed.

(** ** One round of the polling loop *)

Lemma retriable_spec (r : gmap string value) :
  retriable r = true ↔
  r !! "error" = Some (VStr "authorization_pending") ∨
  r !! "error" = Some (VStr "slow_down").
Proof.
  unfold retriable, in_strs, get.
  destruct (r !! "error") as [v|]; [destruct v as [| | | |t| | | |]|]; simpl;
    try (split; [done | intros [?|?]; done]).
  destruct (String.eqb_spec t "authorization_pending") as [Hp|Hp];
    destruct (String.eqb_spec t "slow_down") as [Hs|Hs]; simpl;
    (split; [intros Hin; try done; rewrite ?Hp, ?Hs; by auto
            | intros [?|?]; congruence]).
Qed.

(** The round, unfolded along the outcome of its attempt. *)
Lemma iteration_unfold self ec sl kw s :
  iteration self ec sl kw s =
  match _obtain_token_by_device_flow self kw s with
  | (Returned r, s1) =>
      if retriable r
      then match range (get (st_flow s1) "interval" (VInt 5)) with
           | inl e => (Raised e, s1)
           | inr n => wait ec sl n r s1
           end
      else (Returned (Some r), s1)
  | (Raised e, s1) => (Raised e, s1)
  | (OutOfFuel, s1) => (OutOfFuel, s1)
  end.
Proof.
  unfold iteration, bind at 1.
  destruct (_obtain_token_by_device_flow self kw s) as [[r|e|] s1]; [|done..].
  destruct (retriable r); simpl; [|done].
  unfold bind, get_flow, lift.
  destruct (range _); done.
Qed.

(** The loop, unfolded along the outcome of its round. *)
Lemma poll_step self ec sl kw fuel s :
  poll self ec sl kw (S fuel) s =
  match iteration self ec sl kw s with
  | (Returned (Some result), s1) => (Returned result, s1)
  | (Returned None, s1) => poll self ec sl kw fuel s1
  | (Raised e, s1) => (Raised e, s1)
  | (OutOfFuel, s1) => (OutOfFuel, s1)
  end.
Proof.
  simpl. unfold bind.
  destruct (iteration self ec sl kw s) as [[[result|]|e|] s1]; done.
Qed.

(** C1. One round of the polling loop makes one poll attempt.  A result
    whose error is not [authorization_pending] or [slow_down] is returned
    at once.  Otherwise the round waits out the interval in one-second
    sleeps, each preceded by an exit check: when the check of round [j]
    is the first to hold, the round returns the result it has, after [j]
    sleeps and without another attempt; when none of the checks holds, it
    hands over to the next round after all the sleeps. *)
Theorem polling_iteration self ec sl kw s r s1 :
  _obtain_token_by_device_flow self kw s = (Returned r, s1) →
  (retriable r = true ↔
     r !! "error" = Some (VStr "authorization_pending") ∨
     r !! "error" = Some (VStr "slow_down")) ∧
  count is_attempt (st_trace (iteration self ec sl kw s).2)
  = S (count is_attempt (st_trace s)) ∧
  (retriable r = false → iteration self ec sl kw s = (Returned (Some r), s1)) ∧
  (retriable r = true →
   ∀ n, range (get (st_flow s1) "interval" (VInt 5)) = inr n →
     (∀ j, (j < n)%nat →
        (∀ i, (i < j)%nat →
           ec (st_flow s1) (slept sl i (st_env s1)) = inr false) →
        ec (st_flow s1) (slept sl j (st_env s1)) = inr true →
        iteration self ec sl kw s
        = (Returned (Some r), checked (after_rounds sl j s1))) ∧
     ((∀ i, (i < n)%nat →
         ec (st_flow s1) (slept sl i (st_env s1)) = inr false) →
      iteration self ec sl kw s = (Returned None, after_rounds sl n s1))).
Proof.
  intros Hattempt.
  pose proof (attempt_counts self kw s) as (Hone & _). rewrite Hattempt in Hone.
  simpl in Hone.
  rewrite iteration_unfold, Hattempt.
  split; [apply retriable_spec|]. split; [|split].
  - destruct (retriable r); [|done].
    destruct (range _) as [e|n]; [done|]. by rewrite wait_attempts.
  - by intros ->.
  - intros -> n ->. split.
    + intros j Hj Hbefore Hat. by apply wait_exit.
    + intros Hnever. by apply wait_elapsed.
Qed.

(** C10. When the interval in force at the wait phase is zero or negative,
    the wait phase is empty: no sleep, no exit check, the round ends in the
    very state the attempt left, and the loop goes straight to the next
    attempt, whatever the exit condition says. *)
Theorem nonpositive_interval_skips_wait self ec sl kw fuel s r s1 i :
  _obtain_token_by_device_flow self kw s = (Returned r, s1) →
  retriable r = true →
  get (st_flow s1) "interval" (VInt 5) = VInt i →
  i ≤ 0 →
  iteration self ec sl kw s = (Returned None, s1) ∧
  count is_sleep (st_trace s1) = count is_sleep (st_trace s) ∧
  count is_exit_check (st_trace s1) = count is_exit_check (st_trace s) ∧
  poll self ec sl kw (S fuel) s = poll self ec sl kw fuel s1.
Proof.
  intros Hattempt Hretry Hinterval Hi.
  assert (Hround : iteration self ec sl kw s = (Returned None, s1)).
  { rewrite iteration_unfold, Hattempt, Hretry, Hinterval. simpl.
    replace (Z.to_nat i) with 0%nat by lia. done. }
  pose proof (attempt_counts self kw s) as (_ & Hsleep & Hcheck).
  rewrite Hattempt in Hsleep, Hcheck.
  split; [done|]. split; [done|]. split; [done|].
  by rewrite poll_step, Hround.
Qed.

(** ** Initiating a device flow *)

(** [now + expires_in] for a clock reading and an integer. *)
Lemma add_float_int (t : Q) (e : Z) :
  add (VFloat t) (VInt e) =
  match float_of_int e with
  | Some q => inr (of_flt (float_add t q))
  | None => inl (OverflowError "int too large to convert to float")
  end.
Proof.
  unfold add, float_arith. simpl. by destruct (float_of_int e).
Qed.

Lemma int_of_default_interval (doc : gmap string value) i :
  doc !! "interval" = None →
  Py.int (get doc "interval" (VInt 5)) = inr i → i = 5.
Proof. unfold get. intros ->. simpl. congruence. Qed.

(** The call once the reply is in. *)
Lemma initiate_device_flow_unfold self scope tmo kw s url body extra resp env' :
  configuration self !! DAE = Some url →
  truthy url = true →
  as_dict (default (VDict ∅) (kw_data kw)) "update" = inr body →
  default (VDict ∅) (kw_headers kw) = VDict extra →
  let rq := {| rq_url := url;
               rq_timeout := or_ tmo (timeout self);
               rq_kwargs :=
                 <["data" := VDict (<["scope" := _stringify self (or_ scope (VList []))]>
                                      (<["client_id" := client_id self]> body))]>
                   (<["headers" := VDict (extra ∪ default_headers self)]>
                      (relay_rest kw)) |} in
  session_post self rq (st_env s) = (inr resp, env') →
  let sent := {| st_flow := st_flow s; st_env := env';
                 st_trace := EvRequest rq :: st_trace s |} in
  initiate_device_flow self scope tmo kw s =
  match json_loads (_get_content resp) with
  | inl detail => (Raised (ParseFailure detail), sent)
  | inr (VDict doc) =>
      match Py.int (get doc "interval" (VInt 5)) with
      | inl err => (Raised err, sent)
      | inr i =>
          match Py.int (get doc "expires_in" (VInt 1800)) with
          | inl err => (Raised err, sent)
          | inr e =>
              match add (VFloat (time_time env')) (VInt e) with
              | inl err => (Raised err, sent)
              | inr expires_at =>
                  (Returned (<["expires_at" := expires_at]>
                               (<["expires_in" := VInt e]>
                                  (<["interval" := VInt i]> doc))), sent)
              end
          end
      end
  | inr _ => (Raised (AttributeError "get"), sent)
  end.
Proof.
  intros Hurl Htruthy Hbody Hextra rq Hpost sent.
  assert (Hcfg : get (configuration self) DAE VNone = url)
    by (unfold get; by rewrite Hurl).
  assert (Hitem : getitem (configuration self) DAE = inr url)
    by (unfold getitem; by rewrite Hurl).
  unfold initiate_device_flow, pop_data. rewrite Hcfg, Htruthy, Hitem.
  simpl. unfold bind, lift. rewrite Hbody. simpl. rewrite Hextra. simpl.
  unfold call_post. simpl. fold rq. rewrite Hpost. simpl.
  destruct (json_loads (_get_content resp)) as [detail|loaded]; [done|].
  destruct loaded as [| | | | | |doc| |]; try done. simpl.
  destruct (Py.int (get doc "interval" (VInt 5))) as [err|i]; [done|]. simpl.
  assert (Hget : get (<["interval" := VInt i]> doc) "expires_in" (VInt 1800)
                 = get doc "expires_in" (VInt 1800)).
  { unfold get. by rewrite lookup_insert_ne. }
  rewrite Hget.
  destruct (Py.int (get doc "expires_in" (VInt 1800))) as [err|e]; [done|].
  simpl. unfold getitem. rewrite lookup_insert_eq. simpl.
  by destruct (add (VFloat (time_time env')) (VInt e)).
Qed.

(** C5, as the code has it.  When the device authorization endpoint is
    configured, the provider's reply decodes to a JSON object whose
    [interval] and [expires_in], where present, convert with [int()], and
    [expires_in] is small enough to be added to a float, the call returns
    the provider's object with three fields normalized: [interval] is 5
    when the provider omits it, the integer itself when it is given as a
    number, and the integer the text denotes when it is given as text;
    [expires_in] is 1800 when the provider omits it; [expires_at] is the
    float sum of the clock reading taken once the reply is in and
    [expires_in], whatever the provider sent under that key. *)
Theorem initiate_device_flow_normalizes
    self scope tmo kw s url body extra resp env' doc i e expires_at :
  configuration self !! DAE = Some url →
  truthy url = true →
  as_dict (default (VDict ∅) (kw_data kw)) "update" = inr body →
  default (VDict ∅) (kw_headers kw) = VDict extra →
  let rq := {| rq_url := url;
               rq_timeout := or_ tmo (timeout self);
               rq_kwargs :=
                 <["data" := VDict (<["scope" := _stringify self (or_ scope (VList []))]>
                                      (<["client_id" := client_id self]> body))]>
                   (<["headers" := VDict (extra ∪ default_headers self)]>
                      (relay_rest kw)) |} in
  session_post self rq (st_env s) = (inr resp, env') →
  json_loads (_get_content resp) = inr (VDict doc) →
  Py.int (get doc "interval" (VInt 5)) = inr i →
  Py.int (get doc "expires_in" (VInt 1800)) = inr e →
  add (VFloat (time_time env')) (VInt e) = inr expires_at →
  let flow := <["expires_at" := expires_at]>
                (<["expires_in" := VInt e]> (<["interval" := VInt i]> doc)) in
  initiate_device_flow self scope tmo kw s
  = (Returned flow,
     {| st_flow := st_flow s; st_env := env';
        st_trace := EvRequest rq :: st_trace s |}) ∧
  flow !! "interval" = Some (VInt i) ∧
  flow !! "expires_in" = Some (VInt e) ∧
  flow !! "expires_at" = Some expires_at ∧
  (∃ q, float_of_int e = Some q ∧
        expires_at = of_flt (float_add (time_time env') q)) ∧
  (doc !! "interval" = None → i = 5) ∧
  (∀ n, doc !! "interval" = Some (VInt n) → i = n) ∧
  (∀ txt, doc !! "interval" = Some (VStr txt) → int_of_text txt = inr i) ∧
  (doc !! "expires_in" = None → e = 1800).
Proof.
  intros Hurl Htruthy Hbody Hextra rq Hpost Hjson Hinterval Hexpires Hsum flow.
  split.
  - pose proof (initiate_device_flow_unfold self scope tmo kw s url body extra
                  resp env' Hurl Htruthy Hbody Hextra Hpost) as Hrun.
    simpl in Hrun. rewrite Hrun, Hjson, Hinterval, Hexpires, Hsum. done.
  - subst flow.
    rewrite lookup_insert_ne, lookup_insert_ne, lookup_insert_eq by done.
    rewrite lookup_insert_ne, lookup_insert_eq by done.
    rewrite lookup_insert_eq.
    repeat split; try done.
    + rewrite add_float_int in Hsum.
      destruct (float_of_int e) as [q|]; [|done].
      exists q. split; [done | congruence].
    + intros Hnone. by apply (int_of_default_interval doc).
    + intros n Hn. unfold get in Hinterval. rewrite Hn in Hinterval.
      simpl in Hinterval. congruence.
    + intros txt Htxt. unfold get in Hinterval. by rewrite Htxt in Hinterval.
    + intros Hnone. unfold get in Hexpires. rewrite Hnone in Hexpires.
      simpl in Hexpires. congruence.
Qed.

(** An [expires_in] too large for a float makes the sum, and the call,
    raise [OverflowError]. *)
Lemma initiate_expires_in_overflow
    self scope tmo kw s url body extra resp env' doc i e :
  configuration self !! DAE = Some url →
  truthy url = true →
  as_dict (default (VDict ∅) (kw_data kw)) "update" = inr body →
  default (VDict ∅) (kw_headers kw) = VDict extra →
  let rq := {| rq_url := url;
               rq_timeout := or_ tmo (timeout self);
               rq_kwargs :=
                 <["data" := VDict (<["scope" := _stringify self (or_ scope (VList []))]>
                                      (<["client_id" := client_id self]> body))]>
                   (<["headers" := VDict (extra ∪ default_headers self)]>
                      (relay_rest kw)) |} in
  session_post self rq (st_env s) = (inr resp, env') →
  json_loads (_get_content resp) = inr (VDict doc) →
  Py.int (get doc "interval" (VInt 5)) = inr i →
  Py.int (get doc "expires_in" (VInt 1800)) = inr e →
  float_of_int e = None →
  (initiate_device_flow self scope tmo kw s).1
  = Raised (OverflowError "int too large to convert to float").
Proof.
  intros Hurl Htruthy Hbody Hextra rq Hpost Hjson Hinterval Hexpires Hlarge.
  pose proof (initiate_device_flow_unfold self scope tmo kw s url body extra
                resp env' Hurl Htruthy Hbody Hextra Hpost) as Hrun.
  simpl in Hrun.
  rewrite Hrun, Hjson, Hinterval, Hexpires, add_float_int, Hlarge. done.
Qed.

(** Every descriptor [initiate_device_flow] returns was built that way,
    and the call leaves the flow of the session alone. *)
Lemma initiate_device_flow_inv self scope tmo kw s flow s' :
  initiate_device_flow self scope tmo kw s = (Returned flow, s') →
  ∃ doc i e expires_at,
    flow = <["expires_at" := expires_at]>
             (<["expires_in" := VInt e]> (<["interval" := VInt i]> doc)) ∧
    Py.int (get doc "interval" (VInt 5)) = inr i ∧
    Py.int (get doc "expires_in" (VInt 1800)) = inr e ∧
    add (VFloat (time_time (st_env s'))) (VInt e) = inr expires_at ∧
    st_flow s' = st_flow s.
Proof.
  intros Hrun.
  destruct (configuration self !! DAE) as [url|] eqn:Hurl;
    [|by unfold initiate_device_flow, get in Hrun; rewrite Hurl in Hrun].
  assert (Hcfg : get (configuration self) DAE VNone = url)
    by (unfold get; by rewrite Hurl).
  destruct (truthy url) eqn:Htruthy;
    [|by unfold initiate_device_flow in Hrun; rewrite Hcfg, Htruthy in Hrun].
  assert (Hitem : getitem (configuration self) DAE = inr url)
    by (unfold getitem; by rewrite Hurl).
  destruct (as_dict (default (VDict ∅) (kw_data kw)) "update") as [err|body]
    eqn:Hbody.
  { unfold initiate_device_flow, pop_data, bind, lift in Hrun.
    rewrite Hcfg, Htruthy, Hbody in Hrun. done. }
  destruct (default (VDict ∅) (kw_headers kw)) as [| | | | | |extra| |] eqn:Hextra;
    try (unfold initiate_device_flow, pop_data, bind, lift in Hrun;
         rewrite Hcfg, Htruthy, Hbody, Hitem in Hrun; simpl in Hrun;
         rewrite Hextra in Hrun; done).
  set (rq := {| rq_url := url;
               rq_timeout := or_ tmo (timeout self);
               rq_kwargs :=
                 <["data" := VDict (<["scope" := _stringify self (or_ scope (VList []))]>
                                      (<["client_id" := client_id self]> body))]>
                   (<["headers" := VDict (extra ∪ default_headers self)]>
                      (relay_rest kw)) |}).
  destruct (session_post self rq (st_env s)) as [[detail|resp] env'] eqn:Hpost.
  { unfold initiate_device_flow, pop_data, bind, lift, call_post in Hrun.
    rewrite Hcfg, Htruthy, Hbody, Hitem in Hrun; simpl in Hrun.
    rewrite Hextra in Hrun. simpl in Hrun. fold rq in Hrun.
    rewrite Hpost in Hrun. done. }
  pose proof (initiate_device_flow_unfold self scope tmo kw s url body extra
                resp env' Hurl Htruthy Hbody Hextra Hpost) as Hunfold.
  simpl in Hunfold. rewrite Hunfold in Hrun.
  destruct (json_loads (_get_content resp)) as [detail|loaded]; [done|].
  destruct loaded as [| | | | | |doc| |]; try done.
  destruct (Py.int (get doc "interval" (VInt 5))) as [err|i] eqn:Hi; [done|].
  destruct (Py.int (get doc "expires_in" (VInt 1800))) as [err|e] eqn:He; [done|].
  destruct (add (VFloat (time_time env')) (VInt e)) as [err|x] eqn:Hsum; [done|].
  injection Hrun as <- <-. by exists doc, i, e, x.
Qed.

(** ** Backoff over a polling session *)

Lemma backoff_refl s : backoff_step s s.
Proof.
  intros i Hi. exists []. simpl. split; [done|]. rewrite Hi. f_equal. lia.
Qed.

Lemma backoff_trans s1 s2 s3 :
  backoff_step s1 s2 → backoff_step s2 s3 → backoff_step s1 s3.
Proof.
  intros H12 H23 i Hi.
  destruct (H12 i Hi) as (evs1 & Ht1 & Hg1).
  destruct (H23 _ Hg1) as (evs2 & Ht2 & Hg2).
  exists (evs2 ++ evs1). rewrite Ht2, Ht1, app_assoc. split; [done|].
  rewrite Hg2, count_app. f_equal. lia.
Qed.

(** A step that leaves the flow alone and receives no [slow_down]. *)
Lemma backoff_quiet s s' evs :
  st_flow s' = st_flow s →
  st_trace s' = evs ++ st_trace s →
  count is_slow_down_result evs = 0%nat →
  backoff_step s s'.
Proof.
  intros Hflow Htrace Hquiet i Hi. exists evs. split; [done|].
  rewrite Hflow, Hi, Hquiet. f_equal. lia.
Qed.

Lemma attempt_backoff self kw s :
  backoff_step s (_obtain_token_by_device_flow self kw s).2.
Proof.
  destruct (attempt_cases self kw s) as (out & s1 & -> & Hcases). simpl.
  destruct Hcases as [(e & _ & Hflow & Htrace)|(r & rq & _ & Htrace & _ & Hflow)].
  - intros i Hi.
    destruct Htrace as [Htrace|[(rq & Htrace)|(r & rq & Htrace & _ & Hadd)]].
    + apply (backoff_quiet s s1 [EvPollAttempt]); done.
    + apply (backoff_quiet s s1 [EvRequest rq; EvPollAttempt]); done.
    + rewrite Hi in Hadd. done.
  - intros i Hi. exists [EvResult r; EvRequest rq; EvPollAttempt].
    split; [done|]. rewrite Hflow, Hi. simpl.
    unfold get. rewrite lookup_insert_ne by done.
    destruct (is_slow_down r).
    + rewrite lookup_insert_eq. done.
    + fold (get (st_flow s) "interval" (VInt 5)). rewrite Hi. f_equal. lia.
Qed.

Lemma wait_backoff ec sl n r s : backoff_step s (wait ec sl n r s).2.
Proof.
  destruct (wait_cases ec sl n r s) as [->|(j & _ & [->|[e ->]])]; simpl.
  - destruct (rounds_trace_app n (st_trace s)) as (evs & Hevs & _ & Hquiet).
    by apply (backoff_quiet _ _ evs).
  - destruct (rounds_trace_app j (st_trace s)) as (evs & Hevs & _ & Hquiet).
    apply (backoff_quiet _ _ (EvExitCheck :: evs)); simpl; [done| |done].
    by rewrite Hevs.
  - destruct (rounds_trace_app j (st_trace s)) as (evs & Hevs & _ & Hquiet).
    apply (backoff_quiet _ _ (EvExitCheck :: evs)); simpl; [done| |done].
    by rewrite Hevs.
Qed.

Lemma iteration_backoff self ec sl kw s :
  backoff_step s (iteration self ec sl kw s).2.
Proof.
  rewrite iteration_unfold.
  pose proof (attempt_backoff self kw s) as Hattempt.
  destruct (_obtain_token_by_device_flow self kw s) as [[r|e|] s1]; [|done..].
  simpl in Hattempt. destruct (retriable r); [|done].
  destruct (range _) as [e|n]; [done|].
  eapply backoff_trans; [exact Hattempt | apply wait_backoff].
Qed.

Lemma poll_backoff self ec sl kw fuel s :
  backoff_step s (poll self ec sl kw fuel s).2.
Proof.
  revert s. induction fuel as [|fuel IH]; intros s; [apply backoff_refl|].
  simpl. unfold bind at 1.
  pose proof (iteration_backoff self ec sl kw s) as Hround.
  destruct (iteration self ec sl kw s) as [[[r|]|e|] s1]; try done.
  eapply backoff_trans; [exact Hround | apply IH].
Qed.

(** C2. With an integer [interval] (or none, which counts as 5), a poll
    attempt changes it in one way only: it adds 5 when the result it
    returns carries [slow_down].  Hence at any point of a polling session
    the interval is its initial value plus 5 for each [slow_down] result
    received so far, and so never decreases. *)
Theorem interval_backoff self exit_condition sleeper kw fuel s i :
  get (st_flow s) "interval" (VInt 5) = VInt i →
  match _obtain_token_by_device_flow self kw s with
  | (Returned r, s1) =>
      st_flow s1 !! "interval"
      = if is_slow_down r then Some (VInt (i + 5)) else st_flow s !! "interval"
  | (_, s1) => st_flow s1 !! "interval" = st_flow s !! "interval"
  end ∧
  let s' := (obtain_token_by_device_flow self exit_condition sleeper kw fuel s).2 in
  ∃ evs,
    st_trace s' = evs ++ st_trace s ∧
    get (st_flow s') "interval" (VInt 5)
    = VInt (i + 5 * Z.of_nat (count is_slow_down_result evs)) ∧
    i ≤ i + 5 * Z.of_nat (count is_slow_down_result evs).
Proof.
  intros Hi. split.
  - destruct (attempt_cases self kw s) as (out & s1 & -> & Hcases).
    destruct Hcases as [(e & -> & -> & _)|(r & rq & -> & _ & _ & ->)]; [done|].
    rewrite lookup_insert_ne by done. rewrite Hi. simpl.
    destruct (is_slow_down r); [|done]. by rewrite lookup_insert_eq.
  - intros s'. subst s'.
    assert (Hstep : backoff_step s
      (obtain_token_by_device_flow self exit_condition sleeper kw fuel s).2).
    { unfold obtain_token_by_device_flow.
      destruct sleeper as [sl|]; [apply poll_backoff | apply backoff_refl]. }
    destruct (Hstep i Hi) as (evs & Htrace & Hget).
    exists evs. split; [done|]. split; [done|]. lia.
Qed.

(** ** Frame *)

Lemma iteration_frame self ec sl kw s k :
  k ≠ "interval" → k ≠ "latest_attempt_at" →
  st_flow (iteration self ec sl kw s).2 !! k = st_flow s !! k.
Proof.
  intros Hi Hl. rewrite iteration_unfold.
  pose proof (attempt_frame self kw s k Hi Hl) as Hattempt.
  destruct (_obtain_token_by_device_flow self kw s) as [[r|e|] s1]; [|done..].
  simpl in Hattempt. destruct (retriable r); [|done].
  destruct (range _) as [e|n]; [done|]. by rewrite wait_flow.
Qed.

Lemma poll_frame self ec sl kw fuel s k :
  k ≠ "interval" → k ≠ "latest_attempt_at" →
  st_flow (poll self ec sl kw fuel s).2 !! k = st_flow s !! k.
Proof.
  intros Hi Hl. revert s. induction fuel as [|fuel IH]; intros s; [done|].
  simpl. unfold bind at 1.
  pose proof (iteration_frame self ec sl kw s k Hi Hl) as Hround.
  destruct (iteration self ec sl kw s) as [[[r|]|e|] s1]; try done.
  rewrite IH. done.
Qed.

(** C8. [expires_at] is written when [initiate_device_flow] builds the
    descriptor, and by nothing after that: a poll attempt, a round of the
    polling loop and the whole loop leave every key other than [interval]
    and [latest_attempt_at] as it was, whatever their outcome. *)
Theorem expires_at_written_once
    self scope tmo exit_condition sleeper ec sl kw fuel s k :
  k ≠ "interval" → k ≠ "latest_attempt_at" →
  (∀ flow s', initiate_device_flow self scope tmo kw s = (Returned flow, s') →
              is_Some (flow !! "expires_at") ∧ st_flow s' = st_flow s) ∧
  st_flow (_obtain_token_by_device_flow self kw s).2 !! k = st_flow s !! k ∧
  st_flow (iteration self ec sl kw s).2 !! k = st_flow s !! k ∧
  st_flow (obtain_token_by_device_flow self exit_condition sleeper kw fuel s).2 !! k
  = st_flow s !! k.
Proof.
  intros Hi Hl. split; [|split; [|split]].
  - intros flow s' Hrun.
    destruct (initiate_device_flow_inv _ _ _ _ _ _ _ Hrun)
      as (doc & i & e & x & -> & _ & _ & _ & Hflow).
    split; [|done]. rewrite lookup_insert_eq. by eexists.
  - by apply attempt_frame.
  - by apply iteration_frame.
  - unfold obtain_token_by_device_flow.
    destruct sleeper as [sl'|]; [by apply poll_frame | done].
Qed.

(** ** An exit condition that always holds *)

(** With at least one round of wait ahead, or a result that is not
    retriable, an exit condition that always holds makes the loop return
    the result of its first attempt, without sleeping. *)
Lemma always_true_exit_single_attempt self ec sl kw fuel s r s1 :
  _obtain_token_by_device_flow self kw s = (Returned r, s1) →
  (∀ flow env, ec flow env = inr true) →
  (retriable r = true →
   ∃ n, range (get (st_flow s1) "interval" (VInt 5)) = inr (S n)) →
  let run := poll self ec sl kw (S fuel) s in
  run.1 = Returned r ∧
  count is_attempt (st_trace run.2) = S (count is_attempt (st_trace s)) ∧
  count is_sleep (st_trace run.2) = count is_sleep (st_trace s).
Proof.
  intros Hattempt Halways Hrounds run. subst run.
  pose proof (attempt_counts self kw s) as (Hone & Hsleep & _).
  rewrite Hattempt in Hone, Hsleep. simpl in Hone, Hsleep.
  rewrite poll_step, iteration_unfold, Hattempt.
  destruct (retriable r); [|done].
  destruct Hrounds as [n ->]; [done|].
  rewrite wait_step, Halways. done.
Qed.

(** * Further properties of the module *)

(** ** The token pipeline, request side *)

(** X1. Without a [token_endpoint] in the configuration, [_obtain_token]
    raises [KeyError] on that key before anything is sent. *)
Theorem obtain_token_without_endpoint
    self grant_type params data headers tmo post rest s :
  configuration self !! "token_endpoint" = None →
  _obtain_token self grant_type params data headers tmo post rest s
  = (Raised (KeyError "token_endpoint"), s).
Proof.
  intros Hnone. unfold _obtain_token, bind, lift, getitem. by rewrite Hnone.
Qed.

(** The one request of a pipeline call. *)
Lemma pipeline_request
    self grant_type params data headers tmo post rest s url :
  configuration self !! "token_endpoint" = Some url →
  let prepared := _prepare_token_request self grant_type params data headers in
  let run := _obtain_token self grant_type params data headers tmo post rest s in
  ∃ evs rq,
    st_trace run.2 = evs ++ EvRequest rq :: st_trace s ∧
    count is_request evs = 0%nat ∧
    rq_url rq = url ∧
    rq_timeout rq = (if truthy tmo then tmo else timeout self) ∧
    (∀ k v, prepared !! k = Some v → rq_kwargs rq !! k = Some v) ∧
    (∀ k, prepared !! k = None → rq_kwargs rq !! k = rest !! k).
Proof.
  intros Hurl prepared run. subst run.
  unfold _obtain_token, bind, lift, call_post, call_raise_for_status, emit,
    raise, ret, getitem.
  rewrite Hurl. simpl. fold prepared.
  set (rq := {| rq_url := url; rq_timeout := or_ tmo (timeout self);
                rq_kwargs := prepared ∪ rest |}).
  assert (Hrq : rq_url rq = url ∧
                rq_timeout rq = (if truthy tmo then tmo else timeout self) ∧
                (∀ k v, prepared !! k = Some v → rq_kwargs rq !! k = Some v) ∧
                (∀ k, prepared !! k = None → rq_kwargs rq !! k = rest !! k)).
  { split; [done|]. split; [done|]. split.
    - intros k v Hk. simpl. by apply lookup_union_Some_l.
    - intros k Hk. simpl. by apply lookup_union_r. }
  destruct (default (session_post self) post rq (st_env s))
    as [[detail|resp] env']; simpl; [by exists [], rq|].
  destruct (status_of resp) as [e|code]; simpl; [by exists [], rq|].
  destruct (Z.leb 500 code); simpl.
  - destruct (raise_for_status resp); simpl; [by exists [], rq|].
    destruct (_parse_token_resposne self (_get_content resp)) as [detail|r];
      simpl; [by exists [], rq | by exists [EvResult r], rq].
  - destruct (_parse_token_resposne self (_get_content resp)) as [detail|r];
      simpl; [by exists [], rq | by exists [EvResult r], rq].
Qed.

(** X2. With a [token_endpoint], a call of [_obtain_token] sends exactly one
    request, whatever comes of it.  The request goes to the endpoint; its
    timeout is the one given unless that is falsy ([None], [0]), in which
    case it is the client's; and of its keyword arguments, those prepared
    by [_prepare_token_request] override the ones relayed by the caller. *)
Theorem obtain_token_sends_one_request
    self grant_type params data headers tmo post rest s url :
  configuration self !! "token_endpoint" = Some url →
  let prepared := _prepare_token_request self grant_type params data headers in
  let run := _obtain_token self grant_type params data headers tmo post rest s in
  ∃ evs rq,
    st_trace run.2 = evs ++ EvRequest rq :: st_trace s ∧
    count is_request evs = 0%nat ∧
    rq_url rq = url ∧
    rq_timeout rq = (if truthy tmo then tmo else timeout self) ∧
    (∀ k v, prepared !! k = Some v → rq_kwargs rq !! k = Some v) ∧
    (∀ k, prepared !! k = None → rq_kwargs rq !! k = rest !! k).
Proof. apply pipeline_request. Qed.

(** X3. A response that offers neither a usable [status_code] (missing,
    [None] or [0]) nor a [status] makes [_obtain_token] raise
    [AttributeError] once the request is out; its body is not
    interpreted. *)
Theorem obtain_token_unreadable_status
    self grant_type params data headers tmo post rest s url resp env' :
  configuration self !! "token_endpoint" = Some url →
  let rq := {| rq_url := url;
               rq_timeout := or_ tmo (timeout self);
               rq_kwargs := _prepare_token_request self grant_type params data headers
                              ∪ rest |} in
  default (session_post self) post rq (st_env s) = (inr resp, env') →
  status_code resp = None ∨ status_code resp = Some 0 →
  status resp = None →
  _obtain_token self grant_type params data headers tmo post rest s
  = (Raised (AttributeError "status"),
     {| st_flow := st_flow s; st_env := env';
        st_trace := EvRequest rq :: st_trace s |}).
Proof.
  intros Hurl rq Hpost Hcode Hstatus.
  assert (Hunread : status_of resp = inl (AttributeError "status")).
  { unfold status_of. rewrite Hstatus. by destruct Hcode as [-> | ->]. }
  unfold _obtain_token, bind, lift, call_post, getitem.
  rewrite Hurl. simpl. fold rq. rewrite Hpost. simpl. by rewrite Hunread.
Qed.

(** ** The grants of [Client] *)

(** X4. The password grant builds its body from the caller's [data] with
    the given [username], [password] and [scope] (also a [None] scope)
    written over it: the caller cannot override these three keys, and
    keeps all the others.  A [grant_type] among the caller's keywords is
    refused with [TypeError] before anything is sent; otherwise the grant
    is one call of the pipeline with grant type [password] and that body,
    which sends exactly one request when a token endpoint is
    configured. *)
Theorem password_grant_body self username password scope kw s data :
  as_dict (default (VDict ∅) (kw_data kw)) "update" = inr data →
  ∃ body,
    body !! "username" = Some username ∧
    body !! "password" = Some password ∧
    body !! "scope" = Some scope ∧
    (∀ k, k ≠ "username" → k ≠ "password" → k ≠ "scope" →
          body !! k = data !! k) ∧
    (is_Some (kw_rest kw !! "grant_type") →
     obtain_token_by_username_password self username password scope kw s
     = (Raised grant_type_twice,
        s)) ∧
    (kw_rest kw !! "grant_type" = None →
     obtain_token_by_username_password self username password scope kw s
     = _obtain_token self "password"
         (default VNone (kw_params kw)) (VDict body)
         (default VNone (kw_headers kw)) (default VNone (kw_timeout kw))
         (kw_post kw) (kw_rest kw) s ∧
     (is_Some (configuration self !! "token_endpoint") →
      ∃ evs rq,
        st_trace (obtain_token_by_username_password self username password
                    scope kw s).2 = evs ++ EvRequest rq :: st_trace s ∧
        count is_request evs = 0%nat)).
Proof.
  intros Hdata.
  exists (<["scope" := scope]>
            (<["password" := password]> (<["username" := username]> data))).
  assert (Hrun : obtain_token_by_username_password self username password scope kw s
                 = relay_obtain_token self "password"
                     (<["scope" := scope]>
                        (<["password" := password]> (<["username" := username]> data)))
                     kw s).
  { unfold obtain_token_by_username_password, pop_data, bind, lift.
    by rewrite Hdata. }
  split; [by simplify_map_eq|]. split; [by simplify_map_eq|].
  split; [by simplify_map_eq|].
  split; [intros k Hu Hp Hs; by rewrite !lookup_insert_ne|].
  rewrite Hrun. unfold relay_obtain_token. split.
  - intros [v ->]. done.
  - intros ->. split; [done|]. intros [url Hurl].
    match goal with
    | |- context [_obtain_token ?c ?g ?p ?d ?h ?t ?po ?r ?s0] =>
        destruct (pipeline_request c g p d h t po r s0 url Hurl)
          as (evs & rq & Htrace & Hcount & _)
    end.
    by exists evs, rq.
Qed.

(** X5. The client credentials grant builds its body from the caller's
    [data] with [scope] written over it.  A [grant_type] among the
    caller's keywords is refused with [TypeError] before anything is sent;
    otherwise the grant is one call of the pipeline with grant type
    [client_credentials] and that body, which sends exactly one request
    when a token endpoint is configured. *)
Theorem client_grant_body self scope kw s data :
  as_dict (default (VDict ∅) (kw_data kw)) "update" = inr data →
  ∃ body,
    body !! "scope" = Some scope ∧
    (∀ k, k ≠ "scope" → body !! k = data !! k) ∧
    (is_Some (kw_rest kw !! "grant_type") →
     obtain_token_for_client self scope kw s
     = (Raised grant_type_twice,
        s)) ∧
    (kw_rest kw !! "grant_type" = None →
     obtain_token_for_client self scope kw s
     = _obtain_token self "client_credentials"
         (default VNone (kw_params kw)) (VDict body)
         (default VNone (kw_headers kw)) (default VNone (kw_timeout kw))
         (kw_post kw) (kw_rest kw) s ∧
     (is_Some (configuration self !! "token_endpoint") →
      ∃ evs rq,
        st_trace (obtain_token_for_client self scope kw s).2
        = evs ++ EvRequest rq :: st_trace s ∧
        count is_request evs = 0%nat)).
Proof.
  intros Hdata. exists (<["scope" := scope]> data).
  assert (Hrun : obtain_token_for_client self scope kw s
                 = relay_obtain_token self "client_credentials"
                     (<["scope" := scope]> data) kw s).
  { unfold obtain_token_for_client, pop_data, bind, lift. by rewrite Hdata. }
  split; [by simplify_map_eq|].
  split; [intros k Hs; by rewrite lookup_insert_ne|].
  rewrite Hrun. unfold relay_obtain_token. split.
  - intros [v ->]. done.
  - intros ->. split; [done|]. intros [url Hurl].
    match goal with
    | |- context [_obtain_token ?c ?g ?p ?d ?h ?t ?po ?r ?s0] =>
        destruct (pipeline_request c g p d h t po r s0 url Hurl)
          as (evs & rq & Htrace & Hcount & _)
    end.
    by exists evs, rq.
Qed.

(** X6. A [data] keyword that is not a dictionary makes both grants raise
    [AttributeError] on [update] before anything is sent. *)
Theorem grants_reject_non_dict_data self username password scope kw s v :
  kw_data kw = Some v →
  (∀ d, v ≠ VDict d) →
  obtain_token_by_username_password self username password scope kw s
  = (Raised (AttributeError "update"), s) ∧
  obtain_token_for_client self scope kw s
  = (Raised (AttributeError "update"), s).
Proof.
  intros Hdata Hnot.
  assert (Hbad : as_dict (default (VDict ∅) (kw_data kw)) "update"
                 = inl (AttributeError "update")).
  { rewrite Hdata. simpl. destruct v; try done. by destruct (Hnot d). }
  unfold obtain_token_by_username_password, obtain_token_for_client, pop_data,
    bind, lift.
  by rewrite Hbad.
Qed.

(** ** One poll attempt, further *)

(** X7. An attempt that raises, whatever the reason (a fault of the
    transport, a 5xx reply, a reply that does not parse, a missing key),
    leaves the flow exactly as it was: neither [interval] nor
    [latest_attempt_at] is written; it has sent at most one request. *)
Theorem failed_attempt_leaves_flow self kw s e s1 :
  _obtain_token_by_device_flow self kw s = (Raised e, s1) →
  st_flow s1 = st_flow s ∧
  (count is_request (st_trace s1) ≤ S (count is_request (st_trace s)))%nat.
Proof.
  intros Hrun.
  destruct (attempt_cases self kw s) as (out & s1' & Heq & Hcases).
  rewrite Hrun in Heq. injection Heq as <- <-.
  destruct Hcases as [(e' & _ & Hflow & Htrace)|(r & rq & Hout & _)]; [|done].
  split; [done|].
  destruct Htrace as [->|[(rq & ->)|(r & rq & -> & _)]]; simpl; lia.
Qed.

(** X8. An attempt that returns has sent exactly one request, and has
    recorded as [latest_attempt_at] the clock reading taken on entry,
    before the request went out. *)
Theorem attempt_records_entry_time self kw s r s1 :
  _obtain_token_by_device_flow self kw s = (Returned r, s1) →
  st_flow s1 !! "latest_attempt_at" = Some (VFloat (time_time (st_env s))) ∧
  count is_request (st_trace s1) = S (count is_request (st_trace s)).
Proof.
  intros Hrun.
  destruct (attempt_cases self kw s) as (out & s1' & Heq & Hcases).
  rewrite Hrun in Heq. injection Heq as <- <-.
  destruct Hcases as [(e' & Hout & _)|(r' & rq & _ & -> & _ & ->)]; [done|].
  split; [by rewrite lookup_insert_eq | done].
Qed.

(** X9. A flow without [device_code] cannot be polled: a timely attempt
    raises [KeyError] on that key before anything is sent. *)
Theorem attempt_without_device_code self kw s data :
  too_soon (st_flow s) (time_time (st_env s)) = inr false →
  as_dict (default (VDict ∅) (kw_data kw)) "update" = inr data →
  st_flow s !! "device_code" = None →
  _obtain_token_by_device_flow self kw s
  = (Raised (KeyError "device_code"),
     {| st_flow := st_flow s; st_env := st_env s;
        st_trace := EvPollAttempt :: st_trace s |}).
Proof.
  intros Hsoon Hdata Hnone.
  unfold _obtain_token_by_device_flow, bind, emit, now_, get_flow, lift. simpl.
  rewrite Hsoon. simpl. unfold pop_data, lift. rewrite Hdata. simpl.
  unfold getitem. by rewrite Hnone.
Qed.

(** X10. A flow whose [interval] is still text, as a provider may send it,
    cannot be polled either: the timing check of the attempt raises
    [TypeError] before anything is sent.  The conversion done by
    [initiate_device_flow] is what makes a descriptor pollable. *)
Theorem attempt_with_text_interval self kw s txt :
  st_flow s !! "interval" = Some (VStr txt) →
  ∃ msg,
    _obtain_token_by_device_flow self kw s
    = (Raised (TypeError msg),
       {| st_flow := st_flow s; st_env := st_env s;
          st_trace := EvPollAttempt :: st_trace s |}).
Proof.
  intros Htext.
  assert (Hsoon : ∃ msg, too_soon (st_flow s) (time_time (st_env s))
                         = inl (TypeError msg)).
  { unfold too_soon, get. rewrite Htext.
    destruct (st_flow s !! "latest_attempt_at") as [v|]; [|by eexists].
    destruct v; simpl; by eexists. }
  destruct Hsoon as [msg Hsoon]. exists msg.
  unfold _obtain_token_by_device_flow, bind, emit, now_, get_flow, lift. simpl.
  by rewrite Hsoon.
Qed.

(** ** The polling loop, further *)

Lemma well_paced_app (later earlier : list event) :
  well_paced earlier → well_paced later → well_paced (later ++ earlier).
Proof.
  intros (Hr1 & Hc1 & Hs1) (Hr2 & Hc2 & Hs2). unfold well_paced.
  rewrite !count_app, Forall_app. repeat split; [lia | lia | done | done].
Qed.

Lemma rounds_trace_paced j older :
  ∃ evs, rounds_trace j older = evs ++ older ∧
         count is_sleep evs = j ∧ count is_exit_check evs = j ∧
         count is_attempt evs = 0%nat ∧ count is_request evs = 0%nat ∧
         Forall one_second evs.
Proof.
  revert older. induction j as [|j IH]; intros older; simpl.
  - by exists [].
  - destruct (IH (EvSleep 1 :: EvExitCheck :: older))
      as (evs & -> & Hs & Hc & Ha & Hr & Hone).
    exists (evs ++ [EvSleep 1; EvExitCheck]).
    rewrite <- app_assoc, !count_app, Forall_app. simpl.
    repeat split; try done; try lia; by repeat constructor.
Qed.

(** The trace of a wait: no attempt, no request, one-second sleeps, and at
    most one exit check more than sleeps. *)
Lemma wait_trace ec sl n r s :
  ∃ evs, st_trace (wait ec sl n r s).2 = evs ++ st_trace s ∧
         (count is_exit_check evs ≤ S (count is_sleep evs))%nat ∧
         count is_attempt evs = 0%nat ∧ count is_request evs = 0%nat ∧
         Forall one_second evs.
Proof.
  destruct (wait_cases ec sl n r s) as [->|(j & _ & [->|[e ->]])]; simpl.
  - destruct (rounds_trace_paced n (st_trace s))
      as (evs & -> & Hs & Hc & Ha & Hr & Hone).
    exists evs. repeat split; try done. lia.
  - destruct (rounds_trace_paced j (st_trace s))
      as (evs & -> & Hs & Hc & Ha & Hr & Hone).
    exists (EvExitCheck :: evs). simpl.
    repeat split; try done; try lia; by constructor.
  - destruct (rounds_trace_paced j (st_trace s))
      as (evs & -> & Hs & Hc & Ha & Hr & Hone).
    exists (EvExitCheck :: evs). simpl.
    repeat split; try done; try lia; by constructor.
Qed.

(** The trace of an attempt starts with its marker and holds at most one
    request. *)
Lemma attempt_trace self kw s :
  ∃ evs, st_trace (_obtain_token_by_device_flow self kw s).2
         = evs ++ EvPollAttempt :: st_trace s ∧
         (count is_request evs ≤ 1)%nat ∧
         count is_attempt evs = 0%nat ∧ count is_sleep evs = 0%nat ∧
         count is_exit_check evs = 0%nat ∧ Forall one_second evs.
Proof.
  destruct (attempt_cases self kw s) as (out & s1 & -> & Hcases). simpl.
  destruct Hcases as
    [(e & _ & _ & [->|[(rq & ->)|(r & rq & -> & _)]])|(r & rq & _ & -> & _)].
  - exists []. simpl. repeat split; try done; lia.
  - exists [EvRequest rq]. simpl. repeat split; try done; by repeat constructor.
  - exists [EvResult r; EvRequest rq]. simpl.
    repeat split; try done; by repeat constructor.
  - exists [EvResult r; EvRequest rq]. simpl.
    repeat split; try done; by repeat constructor.
Qed.

Lemma iteration_trace self ec sl kw s :
  ∃ evs, st_trace (iteration self ec sl kw s).2
         = evs ++ EvPollAttempt :: st_trace s ∧
         well_paced (evs ++ [EvPollAttempt]).
Proof.
  rewrite iteration_unfold.
  destruct (attempt_trace self kw s) as (evs & Htrace & Hr & Ha & Hs & Hc & Hone).
  assert (Hpaced : well_paced (evs ++ [EvPollAttempt])).
  { unfold well_paced. rewrite !count_app, Forall_app. simpl.
    repeat split; try done; try lia; by repeat constructor. }
  destruct (_obtain_token_by_device_flow self kw s) as [[r|e|] s1];
    simpl in Htrace; [|by exists evs..].
  destruct (retriable r); [|by exists evs].
  destruct (range _) as [e|n]; [by exists evs|].
  destruct (wait_trace ec sl n r s1) as (ws & -> & Hwc & Hwa & Hwr & Hwone).
  exists (ws ++ evs). rewrite Htrace, <- app_assoc. split; [done|].
  unfold well_paced. rewrite !count_app, !Forall_app. simpl.
  repeat split; try done; try lia; by repeat constructor.
Qed.

Lemma poll_trace self ec sl kw fuel s :
  ∃ evs, st_trace (poll self ec sl kw fuel s).2 = evs ++ st_trace s ∧
         well_paced evs ∧
         (fuel ≠ 0%nat → ∃ evs', evs = evs' ++ [EvPollAttempt]).
Proof.
  revert s. induction fuel as [|fuel IH]; intros s.
  - exists []. simpl. repeat split; try done; by constructor.
  - rewrite poll_step.
    destruct (iteration_trace self ec sl kw s) as (evs & Htrace & Hpaced).
    assert (Hhere : ∃ evs0, evs ++ EvPollAttempt :: st_trace s = evs0 ++ st_trace s ∧
                            well_paced evs0 ∧
                            (S fuel ≠ 0%nat → ∃ evs', evs0 = evs' ++ [EvPollAttempt])).
    { exists (evs ++ [EvPollAttempt]). rewrite <- app_assoc.
      split; [done|]. split; [done|]. intros _. by exists evs. }
    destruct (iteration self ec sl kw s) as [[[r|]|e|] s1]; simpl in Htrace;
      simpl; try (rewrite Htrace; exact Hhere).
    destruct (IH s1) as (more & -> & Hmore & _).
    exists (more ++ evs ++ [EvPollAttempt]). rewrite Htrace, <- !app_assoc.
    split; [done|]. split; [by apply well_paced_app|].
    intros _. exists (more ++ evs). by rewrite <- app_assoc.
Qed.

(** X11. The loop does not retry after an exception: when an attempt
    raises, the loop raises the same exception in the state the attempt
    left, without sleeping and without another attempt. *)
Theorem poll_stops_on_exception self exit_condition sl kw fuel s e s1 :
  _obtain_token_by_device_flow self kw s = (Raised e, s1) →
  obtain_token_by_device_flow self exit_condition (Some sl) kw (S fuel) s
  = (Raised e, s1).
Proof.
  intros Hattempt. unfold obtain_token_by_device_flow.
  by rewrite poll_step, iteration_unfold, Hattempt.
Qed.

(** X12. The loop polls before it looks: whatever the exit condition says,
    even on a flow that has already expired, its first interaction is a
    poll attempt. *)
Theorem poll_attempts_first self exit_condition sl kw fuel s :
  ∃ evs,
    st_trace (obtain_token_by_device_flow self exit_condition (Some sl) kw
                (S fuel) s).2
    = evs ++ EvPollAttempt :: st_trace s.
Proof.
  unfold obtain_token_by_device_flow.
  destruct (poll_trace self (default default_exit_condition exit_condition)
              sl kw (S fuel) s) as (evs & -> & _ & Hfirst).
  destruct Hfirst as [evs' ->]; [done|].
  exists evs'. by rewrite <- app_assoc.
Qed.

(** X13. Over a whole session, whatever its outcome: no more token
    requests than poll attempts, no more exit checks than sleeps and
    attempts together (at most one check per sleep, plus one per round),
    and every sleep is of one second. *)
Theorem session_is_well_paced self exit_condition sleeper kw fuel s :
  ∃ evs,
    st_trace (obtain_token_by_device_flow self exit_condition sleeper kw
                fuel s).2 = evs ++ st_trace s ∧
    (count is_request evs ≤ count is_attempt evs)%nat ∧
    (count is_exit_check evs ≤ count is_sleep evs + count is_attempt evs)%nat ∧
    Forall one_second evs.
Proof.
  unfold obtain_token_by_device_flow. destruct sleeper as [sl|].
  - destruct (poll_trace self (default default_exit_condition exit_condition)
                sl kw fuel s) as (evs & Htrace & Hpaced & _).
    by exists evs.
  - exists []. simpl. repeat split; try done; by constructor.
Qed.

(** A wait returns a result only at an exit check that held. *)
Lemma wait_returns_inv ec sl n r s r' s' :
  wait ec sl n r s = (Returned (Some r'), s') →
  r' = r ∧ ec (st_flow s') (st_env s') = inr true ∧
  ∃ older, st_trace s' = EvExitCheck :: older.
Proof.
  revert s. induction n as [|n IH]; intros s; [done|].
  rewrite wait_step.
  destruct (ec (st_flow s) (st_env s)) as [e|[|]] eqn:Hec; [done| |by apply IH].
  intros [= <- <-]. simpl. split; [done|]. split; [done|]. by eexists.
Qed.

(** X14. The loop returns a retriable result ([authorization_pending] or
    [slow_down]) only because the exit condition held: the final state is
    the one of an exit check that said so. *)
Theorem pending_result_means_exit self ec sl kw fuel s r s' :
  poll self ec sl kw fuel s = (Returned r, s') →
  retriable r = true →
  ec (st_flow s') (st_env s') = inr true ∧
  ∃ older, st_trace s' = EvExitCheck :: older.
Proof.
  revert s. induction fuel as [|fuel IH]; intros s; [done|].
  rewrite poll_step, iteration_unfold.
  destruct (_obtain_token_by_device_flow self kw s) as [[r1|e|] s1]; [|done..].
  destruct (retriable r1) eqn:Hr1.
  - destruct (range _) as [e|n]; [done|].
    destruct (wait ec sl n r1 s1) as [[[r2|]|e|] s2] eqn:Hwait; try done.
    + intros [= <- <-] _.
      destruct (wait_returns_inv _ _ _ _ _ _ _ Hwait) as (_ & Hec & Hcheck).
      done.
    + apply IH.
  - intros [= <- <-] Hretry. congruence.
Qed.

Lemma slow_down_is_retriable (r : gmap string value) :
  is_slow_down r = true → retriable r = true.
Proof.
  unfold is_slow_down, retriable, in_strs. simpl. intros ->.
  by rewrite orb_true_r.
Qed.

(** X15. Backoff takes effect in the round that received it: after a
    [slow_down] result on an integer interval [i], the wait of the same
    round is [i + 5] seconds long when the exit condition does not cut it
    short. *)
Theorem backoff_applies_in_same_round self ec sl kw s r s1 i :
  _obtain_token_by_device_flow self kw s = (Returned r, s1) →
  is_slow_down r = true →
  get (st_flow s) "interval" (VInt 5) = VInt i →
  (∀ k, (k < Z.to_nat (i + 5))%nat →
        ec (st_flow s1) (slept sl k (st_env s1)) = inr false) →
  iteration self ec sl kw s
  = (Returned None, after_rounds sl (Z.to_nat (i + 5)) s1).
Proof.
  intros Hattempt Hslow Hi Hnever.
  assert (Hnew : get (st_flow s1) "interval" (VInt 5) = VInt (i + 5)).
  { destruct (attempt_cases self kw s) as (out & s1' & Heq & Hcases).
    rewrite Hattempt in Heq. injection Heq as <- <-.
    destruct Hcases as [(e' & Hout & _)|(r' & rq & [= <-] & _ & _ & ->)]; [done|].
    rewrite Hslow, Hi. simpl. unfold get.
    by rewrite lookup_insert_ne, lookup_insert_eq. }
  rewrite iteration_unfold, Hattempt, (slow_down_is_retriable r Hslow), Hnew.
  simpl. by apply wait_elapsed.
Qed.

(** ** Initiating a device flow, further *)



(** X17. A reply that is not a JSON object yields no descriptor: when it
    does not decode the call raises the decoder's failure, and when it
    decodes to anything but an object (a list, a string, a number,
    [null]) it raises [AttributeError]; the one request has been sent. *)
Theorem initiate_rejects_non_object
    self scope tmo kw s url body extra resp env' :
  configuration self !! DAE = Some url →
  truthy url = true →
  as_dict (default (VDict ∅) (kw_data kw)) "update" = inr body →
  default (VDict ∅) (kw_headers kw) = VDict extra →
  let rq := {| rq_url := url;
               rq_timeout := or_ tmo (timeout self);
               rq_kwargs :=
                 <["data" := VDict (<["scope" := _stringify self (or_ scope (VList []))]>
                                      (<["client_id" := client_id self]> body))]>
                   (<["headers" := VDict (extra ∪ default_headers self)]>
                      (relay_rest kw)) |} in
  session_post self rq (st_env s) = (inr resp, env') →
  let sent := {| st_flow := st_flow s; st_env := env';
                 st_trace := EvRequest rq :: st_trace s |} in
  (∀ detail, json_loads (_get_content resp) = inl detail →
     initiate_device_flow self scope tmo kw s
     = (Raised (ParseFailure detail), sent)) ∧
  (∀ v, json_loads (_get_content resp) = inr v → (∀ d, v ≠ VDict d) →
     initiate_device_flow self scope tmo kw s
     = (Raised (AttributeError "get"), sent)).
Proof.
  intros Hurl Htruthy Hbody Hextra rq Hpost sent.
  pose proof (initiate_device_flow_unfold self scope tmo kw s url body extra
                resp env' Hurl Htruthy Hbody Hextra Hpost) as Hrun.
  simpl in Hrun. rewrite Hrun. split.
  - by intros detail ->.
  - intros v -> Hnot. destruct v; try done. by destruct (Hnot d).
Qed.

Lemma Qltb_ge (t r : Q) : (t <= r)%Q → Qltb r t = false.
Proof.
  intros Hle. unfold Qltb. by apply negb_false_iff, Qle_bool_iff.
Qed.

Lemma lt_float_of_flt (f : flt) (t : Q) :
  ∃ b, lt_float (of_flt f) t = inr b.
Proof. destruct f; by eexists. Qed.

(** X18. A descriptor returned by [initiate_device_flow] can be handed to
    the poller as it is: its [interval] is an integer, so the wait of the
    loop can count it, and the default exit condition evaluates on it
    without error, to [expires_at < now] for the [expires_at] the call
    stored, the float sum of its clock reading and [expires_in]; with a
    non-negative [expires_in], it does not hold at the time the descriptor
    was made. *)
Theorem initiated_flow_is_pollable self scope tmo kw s flow s' :
  initiate_device_flow self scope tmo kw s = (Returned flow, s') →
  ∃ i e,
    flow !! "interval" = Some (VInt i) ∧
    range (get flow "interval" (VInt 5)) = inr (Z.to_nat i) ∧
    flow !! "expires_in" = Some (VInt e) ∧
    (∃ expires_at,
       flow !! "expires_at" = Some expires_at ∧
       add (VFloat (time_time (st_env s'))) (VInt e) = inr expires_at ∧
       ∀ env, ∃ b, default_exit_condition flow env = inr b ∧
                   lt_float expires_at (time_time env) = inr b) ∧
    (0 ≤ e → default_exit_condition flow (st_env s') = inr false).
Proof.
  intros Hrun.
  destruct (initiate_device_flow_inv _ _ _ _ _ _ _ Hrun)
    as (doc & i & e & x & -> & _ & _ & Hsum & _).
  exists i, e.
  set (flow := <["expires_at" := x]>
                 (<["expires_in" := VInt e]> (<["interval" := VInt i]> doc))).
  assert (Hinterval : flow !! "interval" = Some (VInt i)).
  { subst flow. by rewrite lookup_insert_ne, lookup_insert_ne, lookup_insert_eq. }
  assert (Hexit : ∀ env, default_exit_condition flow env
                         = lt_float x (time_time env)).
  { intros env. subst flow. unfold default_exit_condition, get.
    by rewrite lookup_insert_eq. }
  pose proof Hsum as Hx. rewrite add_float_int in Hx.
  destruct (float_of_int e) as [q|] eqn:Hq; [|done].
  injection Hx as <-.
  split; [done|]. split; [unfold get; by rewrite Hinterval|].
  split; [subst flow; by rewrite lookup_insert_ne, lookup_insert_eq|].
  split.
  - exists (of_flt (float_add (time_time (st_env s')) q)).
    split; [subst flow; by rewrite lookup_insert_eq|]. split; [done|].
    intros env. rewrite Hexit.
    destruct (lt_float_of_flt (float_add (time_time (st_env s')) q)
                (time_time env)) as [b Hb].
    by exists b.
  - intros He. rewrite Hexit.
    pose proof (float_of_int_nonneg e q He Hq) as Hq0.
    pose proof (float_add_nonneg (time_time (st_env s')) q
                  (time_is_float (st_env s')) (float_of_int_is_float e q Hq)
                  Hq0) as Hmono.
    destruct (float_add (time_time (st_env s')) q) as [r|negative|]; simpl.
    + unfold lt_float. simpl. by rewrite Qltb_ge.
    + unfold lt_float. simpl. by rewrite Hmono.
    + done.
Qed.

(** X19. With the endpoint configured and well-formed keywords,
    [initiate_device_flow] sends exactly one request, whatever the reply
    and whatever its status code.  Its [data] holds the client's
    [client_id] and the stringified scope on top of the caller's [data],
    which cannot override them; its [headers] are the client's default
    headers with the caller's on top. *)
Theorem initiate_request self scope tmo kw s url body extra :
  configuration self !! DAE = Some url →
  truthy url = true →
  as_dict (default (VDict ∅) (kw_data kw)) "update" = inr body →
  default (VDict ∅) (kw_headers kw) = VDict extra →
  ∃ rq data headers,
    st_trace (initiate_device_flow self scope tmo kw s).2
    = EvRequest rq :: st_trace s ∧
    rq_url rq = url ∧
    rq_kwargs rq !! "data" = Some (VDict data) ∧
    data !! "client_id" = Some (client_id self) ∧
    data !! "scope" = Some (_stringify self (or_ scope (VList []))) ∧
    (∀ k, k ≠ "client_id" → k ≠ "scope" → data !! k = body !! k) ∧
    rq_kwargs rq !! "headers" = Some (VDict headers) ∧
    (∀ k v, extra !! k = Some v → headers !! k = Some v) ∧
    (∀ k, extra !! k = None → headers !! k = default_headers self !! k).
Proof.
  intros Hurl Htruthy Hbody Hextra.
  set (rq := {| rq_url := url;
               rq_timeout := or_ tmo (timeout self);
               rq_kwargs :=
                 <["data" := VDict (<["scope" := _stringify self (or_ scope (VList []))]>
                                      (<["client_id" := client_id self]> body))]>
                   (<["headers" := VDict (extra ∪ default_headers self)]>
                      (relay_rest kw)) |}).
  exists rq, (<["scope" := _stringify self (or_ scope (VList []))]>
                (<["client_id" := client_id self]> body)),
    (extra ∪ default_headers self).
  split.
  - destruct (session_post self rq (st_env s)) as [[detail|resp] env'] eqn:Hpost.
    + assert (Hcfg : get (configuration self) DAE VNone = url)
        by (unfold get; by rewrite Hurl).
      assert (Hitem : getitem (configuration self) DAE = inr url)
        by (unfold getitem; by rewrite Hurl).
      unfold initiate_device_flow, pop_data. rewrite Hcfg, Htruthy, Hitem.
      simpl. unfold bind, lift. rewrite Hbody. simpl. rewrite Hextra. simpl.
      unfold call_post. simpl. fold rq. by rewrite Hpost.
    + pose proof (initiate_device_flow_unfold self scope tmo kw s url body
                    extra resp env' Hurl Htruthy Hbody Hextra Hpost) as Hrun.
      simpl in Hrun. rewrite Hrun.
      destruct (json_loads (_get_content resp)) as [detail|loaded]; [done|].
      destruct loaded as [| | | | | |doc| |]; try done.
      destruct (Py.int (get doc "interval" (VInt 5))); [done|].
      destruct (Py.int (get doc "expires_in" (VInt 1800))) as [err|e]; [done|].
      by destruct (add (VFloat (time_time env')) (VInt e)).
  - split; [done|]. split; [by simplify_map_eq|].
    split; [by simplify_map_eq|]. split; [by simplify_map_eq|].
    split; [intros k Hc Hs; by rewrite !lookup_insert_ne|].
    split; [by simplify_map_eq|].
    split; [intros k v Hk; by apply lookup_union_Some_l|].
    intros k Hk. by apply lookup_union_r.
Qed.

End Properties.

(** * The client on the scripted host *)

Section Runs.
Import Double.

Example int_of_text_10 : Py.int (VStr "10") = inr 10.
Proof. reflexivity. Qed.

Example int_of_text_padded : Py.int (VStr " -1_000 ") = inr (-1000).
Proof. reflexivity. Qed.

Example int_of_text_rejects : Py.int (VStr "5s") = inl invalid_literal.
Proof. reflexivity. Qed.

(** The separators 28 to 31 are not whitespace to [int()]. *)
Example int_of_text_separator :
  Py.int (VStr (String (ascii_of_nat 28) "7")) = inl invalid_literal.
Proof. reflexivity. Qed.

Example int_of_text_underscores :
  Py.int (VStr "1__0") = inl invalid_literal ∧
  Py.int (VStr "_10") = inl invalid_literal ∧
  Py.int (VStr "10_") = inl invalid_literal ∧
  Py.int (VStr "+ 1") = inl invalid_literal ∧
  Py.int (VStr "") = inl invalid_literal.
Proof. repeat split; reflexivity. Qed.

(** 4300 digits convert, 4301 do not. *)
Example int_of_text_digit_limit :
  (∃ z, Py.int (VStr (string_of_list_ascii (repeat "1"%char 4300))) = inr z) ∧
  Py.int (VStr (string_of_list_ascii (repeat "1"%char 4301)))
  = inl (ValueError "Exceeds the limit (4300 digits) for integer string conversion").
Proof.
  split; [eexists|]; vm_compute; reflexivity.
Qed.

(** An integer beyond the range of a float does not add to a clock
    reading. *)
Example huge_expires_in_overflows :
  add (VFloat 1000) (VInt (10 ^ 400))
  = inl (OverflowError "int too large to convert to float").
Proof. vm_compute. reflexivity. Qed.

Lemma polling_iteration_witness :
  let s := start fresh_flow 1000 [reply 400 "pending"] in
  let s1 := (_obtain_token_by_device_flow self no_kwargs s).2 in
  _obtain_token_by_device_flow self no_kwargs s = (Returned pending, s1) ∧
  iteration self always sleeper no_kwargs s
  = (Returned (Some pending), checked (after_rounds sleeper 0 s1)).
Proof.
  intros s s1.
  assert (Hattempt : _obtain_token_by_device_flow self no_kwargs s
                     = (Returned pending, s1)) by (vm_compute; reflexivity).
  split; [exact Hattempt|].
  destruct (polling_iteration self always sleeper no_kwargs s pending s1 Hattempt)
    as (_ & _ & _ & Hwait).
  destruct (Hwait eq_refl 5%nat eq_refl) as (Hexit & _).
  apply (Hexit 0%nat); [lia | intros i Hi; lia | reflexivity].
Defined.

Lemma interval_backoff_witness :
  let s := start fresh_flow 1000 [reply 400 "slow_down"; reply 200 "token"] in
  get (st_flow s) "interval" (VInt 5) = VInt 5 ∧
  ∃ evs,
    st_trace (obtain_token_by_device_flow self (Some never) (Some sleeper)
                no_kwargs 2 s).2 = evs ++ st_trace s ∧
    get (st_flow (obtain_token_by_device_flow self (Some never) (Some sleeper)
                    no_kwargs 2 s).2) "interval" (VInt 5)
    = VInt (5 + 5 * Z.of_nat (count is_slow_down_result evs)).
Proof.
  intros s. split; [reflexivity|].
  destruct (interval_backoff self (Some never) (Some sleeper) no_kwargs 2 s 5
              eq_refl) as (_ & evs & Htrace & Hget & _).
  exists evs. split; [exact Htrace | exact Hget].
Defined.

(** Scenario B: one [slow_down], then the token; the interval went from 5
    to 10. *)
Example slow_down_then_token :
  let run := obtain_token_by_device_flow self (Some never) (Some sleeper)
               no_kwargs 2
               (start fresh_flow 1000 [reply 400 "slow_down"; reply 200 "token"]) in
  run.1 = Returned token ∧
  st_flow run.2 !! "interval" = Some (VInt 10) ∧
  count is_sleep (st_trace run.2) = 10%nat.
Proof. vm_compute. done. Qed.

(** C3 at a flow whose interval is 0: with an exit condition that always
    holds and a provider that answers [authorization_pending] and then the
    token, the loop makes two attempts and returns the second result; the
    exit condition was never consulted. *)
Theorem always_true_exit_polls_again :
  let run := obtain_token_by_device_flow self (Some always) (Some sleeper)
               no_kwargs 2
               (start eager_flow 1000 [reply 400 "pending"; reply 200 "token"]) in
  run.1 = Returned token ∧
  count is_attempt (st_trace run.2) = 2%nat ∧
  count is_exit_check (st_trace run.2) = 0%nat.
Proof. vm_compute. done. Qed.

(** The same exit condition on a flow with an interval of 5: one attempt,
    its pending result returned, no sleep. *)
Example always_true_exit_positive_interval :
  let run := obtain_token_by_device_flow self (Some always) (Some sleeper)
               no_kwargs 2
               (start fresh_flow 1000 [reply 400 "pending"; reply 200 "token"]) in
  run.1 = Returned pending ∧
  count is_attempt (st_trace run.2) = 1%nat ∧
  count is_sleep (st_trace run.2) = 0%nat.
Proof. vm_compute. done. Qed.

(** C4 at a flow polled at [t = 1000] with an interval of 5 and polled
    again at [t = 1000]: the attempt raises [NameError] on [warnings]; no
    warning was issued, no request was sent, and the flow is as it was. *)
Theorem premature_attempt_raises_name_error :
  let s := start polled_flow 1000 [reply 200 "token"] in
  let run := _obtain_token_by_device_flow self no_kwargs s in
  too_soon polled_flow 1000 = inr true ∧
  run.1 = Raised (NameError "warnings") ∧
  st_trace run.2 = [EvPollAttempt] ∧
  count is_request (st_trace run.2) = 0%nat ∧
  st_flow run.2 = polled_flow.
Proof.
  intros s run. subst run.
  rewrite (premature_attempt_fails self no_kwargs s); [|reflexivity].
  done.
Qed.

(** The same attempt once the interval has passed goes through. *)
Example timely_attempt_returns :
  (_obtain_token_by_device_flow self no_kwargs
     (start polled_flow 1004 [reply 200 "token"])).1 = Returned token.
Proof. vm_compute. done. Qed.

(** C9 on the scripted host, which runs with assertions on: for every
    refresh token and scope the call raises [NameError] on [string_types]
    and leaves the state as it was; no request was sent. *)
Theorem refresh_token_grant_raises_name_error (refresh_token : string)
    (scope : value) :
  let s := start ∅ 1000 [reply 200 "token"] in
  obtain_token_by_refresh_token self refresh_token scope no_kwargs s
  = (Raised (NameError "string_types"), s).
Proof. intros s. by apply refresh_token_assert_fails. Qed.

(** C5 as stated fails: the provider gives [interval] as the text "10",
    and the descriptor's interval is 10, not 5. *)
Lemma interval_given_as_text_is_not_5 :
  let run := initiate_device_flow self VNone VNone no_kwargs
               (start ∅ 1000 [reply 200 "flow_text_interval"]) in
  ∃ doc flow,
    json_loads "flow_text_interval" = inr (VDict doc) ∧
    doc !! "interval" = Some (VStr "10") ∧
    run.1 = Returned flow ∧
    flow !! "interval" = Some (VInt 10) ∧
    flow !! "interval" ≠ Some (VInt 5).
Proof.
  eexists _, _. split; [reflexivity|].
  split; [by vm_compute|]. split; [vm_compute; reflexivity|].
  split; [by vm_compute|]. vm_compute. congruence.
Qed.

Lemma initiate_device_flow_normalizes_witness :
  let s := start ∅ 1000 [reply 200 "flow_text_interval"] in
  ∃ flow s',
    initiate_device_flow self VNone VNone no_kwargs s = (Returned flow, s') ∧
    flow !! "interval" = Some (VInt 10) ∧
    flow !! "expires_in" = Some (VInt 1800) ∧
    flow !! "expires_at" = Some (VFloat (1000 + inject_Z 1800)).
Proof.
  intros s.
  destruct (initiate_device_flow_normalizes self VNone VNone no_kwargs s
              (VStr "https://idp.example/devicecode") ∅ ∅
              {| status_code := Some 200; status := None;
                 text := TextPlain "flow_text_interval";
                 raise_for_status := None |}
              {| clock := 1000; inbox := [] |}
              (<[ "interval" := VStr "10" ]> {[ "device_code" := VStr "dc" ]})
              10 1800 (VFloat (1000 + inject_Z 1800)))
    as (Hrun & Hinterval & Hexpires_in & Hexpires_at & _);
    [vm_compute; reflexivity | reflexivity | reflexivity | reflexivity
    | vm_compute; reflexivity | vm_compute; reflexivity
    | vm_compute; reflexivity | vm_compute; reflexivity | reflexivity |].
  eexists _, _. split; [exact Hrun|].
  split; [exact Hinterval|]. split; [exact Hexpires_in | exact Hexpires_at].
Defined.

Lemma configuration_errors_before_network_witness :
  let s := start ∅ 1000 [reply 200 "flow"] in
  truthy (get (configuration self_no_dae) DAE VNone) = false ∧
  initiate_device_flow self_no_dae VNone VNone no_kwargs s
  = (Raised (ValueError "You need to provide device authorization endpoint"), s) ∧
  obtain_token_by_device_flow self_no_dae None None no_kwargs 3 s
  = (Raised (ValueError "You need to provide something like asyncio.sleep"), s).
Proof.
  intros s.
  destruct (configuration_errors_before_network self_no_dae VNone VNone
              no_kwargs None 3 s) as (Hinitiate & Hpoll).
  split; [reflexivity|]. split; [apply Hinitiate; reflexivity | exact Hpoll].
Defined.

Lemma obtain_token_status_code_witness :
  let s := start ∅ 1000 [reply 503 "token"] in
  ∃ detail,
    (_obtain_token self "refresh_token" VNone VNone VNone VNone None ∅ s).1
    = Raised (HTTPFault detail).
Proof.
  intros s.
  destruct (obtain_token_status_code self "refresh_token" VNone VNone VNone
              VNone None ∅ s (VStr "https://idp.example/token")
              {| status_code := Some 503; status := None;
                 text := TextPlain "token";
                 raise_for_status := Some "HTTP status error" |}
              {| clock := 1000; inbox := [] |} 503 "token")
    as (_ & _ & Hiff);
    [vm_compute; reflexivity | vm_compute; reflexivity | reflexivity
    | by left |].
  apply Hiff. split; [lia | by eexists].
Defined.

(** C7 as stated fails: a reply with status 503 whose [raise_for_status]
    returns is interpreted, and its token returned; no fault is raised. *)
Lemma silent_503_is_interpreted :
  let run := _obtain_token self "refresh_token" VNone VNone VNone VNone None ∅
               (start ∅ 1000 [Sloppy.silent_reply 503 "token"]) in
  (∃ resp, Sloppy.silent_reply 503 "token" = inr resp ∧
           status_of resp = inr 503) ∧
  run.1 = Returned token ∧
  ¬ ∃ detail, run.1 = Raised (HTTPFault detail).
Proof.
  split; [by eexists|].
  assert (Hrun : (_obtain_token self "refresh_token" VNone VNone VNone VNone
                    None ∅ (start ∅ 1000 [Sloppy.silent_reply 503 "token"])).1
                 = Returned token) by (vm_compute; reflexivity).
  split; [exact Hrun|]. intros [detail Hfault]. simpl in Hfault.
  rewrite Hrun in Hfault. discriminate.
Qed.

(** Scenario E and its counterpart: 503 raises, 400 is interpreted. *)
Example status_400_is_interpreted :
  (_obtain_token self "device_code" VNone VNone VNone VNone None ∅
     (start ∅ 1000 [reply 400 "denied"])).1
  = Returned {[ "error" := VStr "access_denied" ]}.
Proof. vm_compute. done. Qed.

Lemma expires_at_written_once_witness :
  let s := start fresh_flow 1000 [reply 400 "slow_down"; reply 200 "token"] in
  st_flow (obtain_token_by_device_flow self (Some never) (Some sleeper)
             no_kwargs 2 s).2 !! "expires_at" = Some (VFloat 2800).
Proof.
  intros s.
  destruct (expires_at_written_once self VNone VNone (Some never) (Some sleeper)
              never sleeper no_kwargs 2 s "expires_at")
    as (_ & _ & _ & Hloop); [done | done |].
  rewrite Hloop. reflexivity.
Defined.

Lemma nonpositive_interval_skips_wait_witness :
  let s := start eager_flow 1000 [reply 400 "pending"; reply 200 "token"] in
  let s1 := (_obtain_token_by_device_flow self no_kwargs s).2 in
  iteration self always sleeper no_kwargs s = (Returned None, s1) ∧
  count is_sleep (st_trace s1) = count is_sleep (st_trace s) ∧
  count is_exit_check (st_trace s1) = count is_exit_check (st_trace s) ∧
  poll self always sleeper no_kwargs 2 s = poll self always sleeper no_kwargs 1 s1.
Proof.
  intros s s1.
  apply (nonpositive_interval_skips_wait self always sleeper no_kwargs 1 s
           pending s1 0);
    [vm_compute; reflexivity | reflexivity | vm_compute; reflexivity | lia].
Defined.

(** ** Further runs *)

Lemma obtain_token_without_endpoint_witness :
  let s := start ∅ 1000 [reply 200 "token"] in
  _obtain_token Sloppy.self_no_token_endpoint "password" VNone VNone VNone
    VNone None ∅ s
  = (Raised (KeyError "token_endpoint"), s).
Proof.
  intros s.
  apply (obtain_token_without_endpoint Sloppy.self_no_token_endpoint).
  reflexivity.
Defined.

Lemma obtain_token_sends_one_request_witness :
  let s := start ∅ 1000 [reply 200 "token"] in
  ∃ evs rq,
    st_trace (_obtain_token self "password" VNone VNone VNone (VInt 0) None
                ∅ s).2 = evs ++ EvRequest rq :: st_trace s ∧
    count is_request evs = 0%nat ∧
    rq_timeout rq = timeout self.
Proof.
  intros s.
  destruct (obtain_token_sends_one_request self "password" VNone VNone VNone
              (VInt 0) None ∅ s (VStr "https://idp.example/token"))
    as (evs & rq & Htrace & Hcount & _ & Htimeout & _);
    [vm_compute; reflexivity|].
  exists evs, rq. split; [exact Htrace|]. split; [exact Hcount | exact Htimeout].
Defined.

Lemma obtain_token_unreadable_status_witness :
  let s := start ∅ 1000 [Sloppy.statusless_reply "token"] in
  (_obtain_token self "password" VNone VNone VNone VNone None ∅ s).1
  = Raised (AttributeError "status").
Proof.
  intros s.
  rewrite (obtain_token_unreadable_status self "password" VNone VNone VNone
             VNone None ∅ s (VStr "https://idp.example/token")
             {| status_code := None; status := None;
                text := TextCoroutine "token"; raise_for_status := None |}
             {| clock := 1000; inbox := [] |});
    [reflexivity | vm_compute; reflexivity | vm_compute; reflexivity
    | by left | reflexivity].
Defined.

Lemma password_grant_body_witness :
  let s := start ∅ 1000 [reply 200 "token"] in
  obtain_token_by_username_password self (VStr "ada") (VStr "pw") VNone
    Sloppy.grant_type_again s
  = (Raised grant_type_twice,
     s) ∧
  ∃ evs rq,
    st_trace (obtain_token_by_username_password self (VStr "ada") (VStr "pw")
                VNone no_kwargs s).2 = evs ++ EvRequest rq :: st_trace s ∧
    count is_request evs = 0%nat.
Proof.
  intros s. split.
  - destruct (password_grant_body self (VStr "ada") (VStr "pw") VNone
                Sloppy.grant_type_again s ∅ eq_refl)
      as (body & _ & _ & _ & _ & Hrefused & _).
    apply Hrefused. by eexists.
  - destruct (password_grant_body self (VStr "ada") (VStr "pw") VNone no_kwargs
                s ∅ eq_refl) as (body & _ & _ & _ & _ & _ & Hsent).
    destruct (Hsent eq_refl) as (_ & Hone).
    apply Hone. by eexists.
Defined.

Lemma client_grant_body_witness :
  let s := start ∅ 1000 [reply 200 "token"] in
  obtain_token_for_client self (VStr "api") Sloppy.grant_type_again s
  = (Raised grant_type_twice,
     s) ∧
  ∃ evs rq,
    st_trace (obtain_token_for_client self (VStr "api") no_kwargs s).2
    = evs ++ EvRequest rq :: st_trace s ∧
    count is_request evs = 0%nat.
Proof.
  intros s. split.
  - destruct (client_grant_body self (VStr "api") Sloppy.grant_type_again s ∅
                eq_refl) as (body & _ & _ & Hrefused & _).
    apply Hrefused. by eexists.
  - destruct (client_grant_body self (VStr "api") no_kwargs s ∅ eq_refl)
      as (body & _ & _ & _ & Hsent).
    destruct (Hsent eq_refl) as (_ & Hone).
    apply Hone. by eexists.
Defined.

Lemma grants_reject_non_dict_data_witness :
  let s := start ∅ 1000 [reply 200 "token"] in
  obtain_token_for_client self VNone Sloppy.data_none s
  = (Raised (AttributeError "update"), s).
Proof.
  intros s.
  destruct (grants_reject_non_dict_data self VNone VNone VNone
              Sloppy.data_none s VNone eq_refl) as (_ & Hclient);
    [intros d; discriminate | exact Hclient].
Defined.

Lemma failed_attempt_leaves_flow_witness :
  let s := start polled_flow 1004 [reply 503 "token"] in
  st_flow (_obtain_token_by_device_flow self no_kwargs s).2 = polled_flow.
Proof.
  intros s.
  destruct (failed_attempt_leaves_flow self no_kwargs s
              (HTTPFault "HTTP status error")
              (_obtain_token_by_device_flow self no_kwargs s).2)
    as (Hflow & _); [vm_compute; reflexivity | exact Hflow].
Defined.

Lemma attempt_records_entry_time_witness :
  let s := start polled_flow 1004 [reply 200 "token"] in
  st_flow (_obtain_token_by_device_flow self no_kwargs s).2 !! "latest_attempt_at"
  = Some (VFloat 1004).
Proof.
  intros s.
  destruct (attempt_records_entry_time self no_kwargs s token
              (_obtain_token_by_device_flow self no_kwargs s).2)
    as (Htime & _); [vm_compute; reflexivity | exact Htime].
Defined.

Lemma attempt_without_device_code_witness :
  let s := start ∅ 1000 [reply 200 "token"] in
  (_obtain_token_by_device_flow self no_kwargs s).1
  = Raised (KeyError "device_code").
Proof.
  intros s.
  rewrite (attempt_without_device_code self no_kwargs s ∅);
    [reflexivity | vm_compute; reflexivity | reflexivity | reflexivity].
Defined.

Lemma attempt_with_text_interval_witness :
  let s := start Sloppy.raw_flow 1000 [reply 200 "token"] in
  ∃ msg, (_obtain_token_by_device_flow self no_kwargs s).1
         = Raised (TypeError msg).
Proof.
  intros s.
  destruct (attempt_with_text_interval self no_kwargs s "5")
    as (msg & Hrun); [vm_compute; reflexivity|].
  exists msg. by rewrite Hrun.
Defined.

Lemma poll_stops_on_exception_witness :
  let s := start fresh_flow 1000 [reply 503 "token"; reply 200 "token"] in
  (obtain_token_by_device_flow self None (Some sleeper) no_kwargs 3 s).1
  = Raised (HTTPFault "HTTP status error").
Proof.
  intros s.
  rewrite (poll_stops_on_exception self None sleeper no_kwargs 2 s
             (HTTPFault "HTTP status error")
             (_obtain_token_by_device_flow self no_kwargs s).2);
    [reflexivity | vm_compute; reflexivity].
Defined.

Lemma pending_result_means_exit_witness :
  let s := start fresh_flow 1000 [reply 400 "pending"] in
  ∃ older,
    st_trace (poll self always sleeper no_kwargs 1 s).2 = EvExitCheck :: older.
Proof.
  intros s.
  destruct (pending_result_means_exit self always sleeper no_kwargs 1 s pending
              (poll self always sleeper no_kwargs 1 s).2)
    as (_ & Hcheck); [vm_compute; reflexivity | reflexivity | exact Hcheck].
Defined.

Lemma backoff_applies_in_same_round_witness :
  let s := start fresh_flow 1000 [reply 400 "slow_down"] in
  let s1 := (_obtain_token_by_device_flow self no_kwargs s).2 in
  iteration self never sleeper no_kwargs s
  = (Returned None, after_rounds sleeper 10 s1).
Proof.
  intros s s1.
  apply (backoff_applies_in_same_round self never sleeper no_kwargs s
           Sloppy.slow_down s1 5);
    [vm_compute; reflexivity | reflexivity | reflexivity | reflexivity].
Defined.


Lemma initiate_rejects_non_object_witness :
  let s := start ∅ 1000 [reply 200 "codes"] in
  (initiate_device_flow (H := Sloppy.host) self VNone VNone no_kwargs s).1
  = Raised (AttributeError "get").
Proof.
  intros s.
  destruct (initiate_rejects_non_object (H := Sloppy.host) self VNone VNone
              no_kwargs s (VStr "https://idp.example/devicecode") ∅ ∅
              {| status_code := Some 200; status := None;
                 text := TextPlain "codes"; raise_for_status := None |}
              {| clock := 1000; inbox := [] |})
    as (_ & Hother);
    [vm_compute; reflexivity | reflexivity | reflexivity | reflexivity
    | vm_compute; reflexivity |].
  rewrite (Hother (VList [VStr "dc"]));
    [reflexivity | reflexivity | intros d; discriminate].
Defined.

Lemma initiated_flow_is_pollable_witness :
  let s := start ∅ 1000 [reply 200 "flow"] in
  let run := initiate_device_flow self VNone VNone no_kwargs s in
  let flow := match run.1 with Returned flow => flow | _ => ∅ end in
  run = (Returned flow, run.2) ∧
  ∃ i, flow !! "interval" = Some (VInt i) ∧
       range (get flow "interval" (VInt 5)) = inr (Z.to_nat i).
Proof.
  intros s run flow.
  assert (Hrun : initiate_device_flow self VNone VNone no_kwargs s
                 = (Returned flow, run.2)) by (vm_compute; reflexivity).
  split; [exact Hrun|].
  destruct (initiated_flow_is_pollable self VNone VNone no_kwargs s flow run.2
              Hrun) as (i & e & Hinterval & Hrange & _).
  exists i. split; [exact Hinterval | exact Hrange].
Defined.

Lemma initiate_request_witness :
  let s := start ∅ 1000 [reply 503 "flow"] in
  ∃ rq, st_trace (initiate_device_flow self VNone VNone no_kwargs s).2
        = EvRequest rq :: st_trace s.
Proof.
  intros s.
  destruct (initiate_request self VNone VNone no_kwargs s
              (VStr "https://idp.example/devicecode") ∅ ∅)
    as (rq & data & headers & Htrace & _);
    [vm_compute; reflexivity | reflexivity | reflexivity | reflexivity|].
  exists rq. exact Htrace.
Defined.

End Runs.
